(** * Book service (backend/app.py): validator, listing, CRUD and stats

    A shallow embedding of [backend/app.py] and the properties of its
    validator, its listing query, its create/update/delete handlers and its
    statistics endpoint.

    Conventions of the embedding.
    - A Python [str] is a [string] whose characters are read as the code
      points 0..255 (the Latin-1 range of Unicode).
    - A Python [int] is a [Z], of any size; a Python [float] is an IEEE 754
      binary64 value, the kernel's [float].
    - A Python [dict] received as a JSON object is a [gmap string pyval];
      the query string is a [gmap string string] that binds a parameter to
      its first value.
    - The [books] table is the list of its rows together with the sequence
      of its ids; a handler takes the table and returns its response
      together with the table it leaves behind. A commit succeeds. The
      database compares and orders texts by code points and folds case as
      [str.lower] does; it sums a double precision column row by row, and
      takes the mean of an integer column exactly.
    - An exception that leaves a handler is the response [Unhandled]. *)

From Stdlib Require Import ZArith Floats Ascii String List Bool Lia DecimalString.
From stdpp Require Import gmap strings list.

Local Open Scope string_scope.
Local Open Scope Z_scope.

(** ** The Python builtins the program calls *)

Module Py.

(** *** Characters and strings *)

Definition code (c : ascii) : Z := Z.of_N (N_of_ascii c).

Definition chr (n : Z) : ascii := ascii_of_N (Z.to_N n).

Definition between (lo hi : Z) (c : ascii) : bool :=
  (lo <=? code c) && (code c <=? hi).

(** [str.isspace] on the code points below 256: TAB..CR, FS..US, SPACE,
    NEL and NBSP. This is the set [str.strip()] removes. *)
Definition isspace (c : ascii) : bool :=
  between 9 13 c || between 28 32 c || (code c =? 133) || (code c =? 160).

(** The blanks [int()] and [float()] skip around a number: the C locale's
    white space, and the non-ASCII spaces, which both turn into a blank
    before they parse. FS..US are not skipped. *)
Definition isblank (c : ascii) : bool :=
  between 9 13 c || (code c =? 32) || (code c =? 133) || (code c =? 160).

Definition isdigit (c : ascii) : bool := between 48 57 c.

Definition digit_value (c : ascii) : Z := code c - 48.

Definition is_empty (s : string) : bool :=
  match s with EmptyString => true | String _ _ => false end.

Fixpoint lstrip (p : ascii -> bool) (s : string) : string :=
  match s with
  | EmptyString => EmptyString
  | String c s' => if p c then lstrip p s' else s
  end.

Fixpoint rstrip (p : ascii -> bool) (s : string) : string :=
  match s with
  | EmptyString => EmptyString
  | String c s' =>
      let r := rstrip p s' in
      if is_empty r && p c then EmptyString else String c r
  end.

(** [s.strip()] *)
Definition strip (s : string) : string := rstrip isspace (lstrip isspace s).

(** [c.lower()] on the code points below 256: A..Z and the accented
    capitals 0xC0..0xDE except the multiplication sign 0xD7. *)
Definition lower_char (c : ascii) : ascii :=
  if between 65 90 c || (between 192 222 c && negb (code c =? 215))
  then chr (code c + 32) else c.

Fixpoint lower (s : string) : string :=
  match s with
  | EmptyString => EmptyString
  | String c s' => String (lower_char c) (lower s')
  end.

Fixpoint string_forallb (p : ascii -> bool) (s : string) : bool :=
  match s with
  | EmptyString => true
  | String c s' => p c && string_forallb p s'
  end.

Fixpoint string_existsb (p : ascii -> bool) (s : string) : bool :=
  match s with
  | EmptyString => false
  | String c s' => p c || string_existsb p s'
  end.

Fixpoint repeat_char (c : ascii) (n : nat) : string :=
  match n with
  | O => EmptyString
  | S n' => String c (repeat_char c n')
  end.

Fixpoint join (sep : string) (l : list string) : string :=
  match l with
  | [] => EmptyString
  | [s] => s
  | s :: l' => s ++ sep ++ join sep l'
  end.

(** *** Decimal numerals *)

(** [str(n)] for an [int]. *)
Definition str_int (n : Z) : string := NilZero.string_of_int (Z.to_int n).

(** The value of a string of decimal digits, most significant first. *)
Fixpoint digits_value (acc : Z) (s : string) : Z :=
  match s with
  | EmptyString => acc
  | String c s' => digits_value (10 * acc + digit_value c) s'
  end.

(** Underscores in a numeric literal (PEP 515): each one stands after a
    digit and before a digit. [prev] is the character before [s]. The
    result is the literal without its underscores. *)
Fixpoint drop_underscores (prev : option ascii) (s : string) : option string :=
  match s with
  | EmptyString =>
      match prev with
      | Some "_"%char => None
      | _ => Some EmptyString
      end
  | String c s' =>
      if Ascii.eqb c "_" then
        match prev with
        | Some p => if isdigit p then drop_underscores (Some c) s' else None
        | None => None
        end
      else
        match prev with
        | Some "_"%char =>
            if isdigit c then String c <$> drop_underscores (Some c) s' else None
        | _ => String c <$> drop_underscores (Some c) s'
        end
  end.

(** An optional sign: [true] for minus. *)
Definition split_sign (s : string) : bool * string :=
  match s with
  | String "-" s' => (true, s')
  | String "+" s' => (false, s')
  | _ => (false, s)
  end.

(** [int(s)] for a [str]: blanks around, a sign, decimal digits with
    single underscores between them. [None] stands for [ValueError]. *)
Definition int_of_str (s : string) : option Z :=
  let '(neg, body) := split_sign (rstrip isblank (lstrip isblank s)) in
  match drop_underscores None body with
  | Some ds =>
      if negb (is_empty ds) && string_forallb isdigit ds
      then Some (if neg then - digits_value 0 ds else digits_value 0 ds)
      else None
  | None => None
  end.

(** *** Floats *)

(** Rounding a non-negative quotient [n / d] to the nearest integer, ties
    to the even one: the rounding of IEEE 754 and of [round()]. *)
Definition round_half_even (n d : Z) : Z :=
  let q := n / d in
  let r := n mod d in
  if 2 * r <? d then q
  else if d <? 2 * r then q + 1
  else if Z.even q then q else q + 1.

(** [n / d / 2^e] as a fraction. *)
Definition scaled (n d e : Z) : Z * Z :=
  if 0 <=? e then (n, d * 2 ^ e) else (n * 2 ^ (- e), d).

(** The integer part of the binary logarithm of [n / d], for [0 < n, d]. *)
Definition binade (n d : Z) : Z :=
  let k := Z.log2 n - Z.log2 d in
  let '(a, b) := scaled n d k in
  if a <? b then k - 1 else k.

(** The binary64 value nearest to [n / d] for [0 <= n] and [0 < d], ties to
    even: 53 bits of mantissa, smallest exponent -1074, and infinity above
    the largest finite value. *)
Definition nearest_double (n d : Z) : spec_float :=
  if n <=? 0 then S754_zero false
  else
    let e := Z.max (binade n d - 52) (-1074) in
    let '(a, b) := scaled n d e in
    let m := round_half_even a b in
    let '(m, e) := if m =? 2 ^ 53 then (2 ^ 52, e + 1) else (m, e) in
    if m =? 0 then S754_zero false
    else if 971 <? e then S754_infinity false
    else S754_finite false (Z.to_pos m) e.

Definition with_sign (neg : bool) (x : spec_float) : spec_float :=
  match x with
  | S754_zero _ => S754_zero neg
  | S754_infinity _ => S754_infinity neg
  | S754_nan => S754_nan
  | S754_finite _ m e => S754_finite neg m e
  end.

(** The double nearest to [(-1)^neg * n / d]. *)
Definition double_of_fraction (neg : bool) (n d : Z) : float :=
  SF2Prim (with_sign neg (nearest_double n d)).

(** [float(n)] for an [int]; [None] stands for [OverflowError]. *)
Definition float_of_int (n : Z) : option float :=
  match nearest_double (Z.abs n) 1 with
  | S754_infinity _ => None
  | x => Some (SF2Prim (with_sign (n <? 0) x))
  end.

(** [a / b] for two [int]s, [0 <= a] and [0 < b]: the correctly rounded
    quotient. *)
Definition truediv (a b : Z) : float := double_of_fraction false a b.

(** [int(x)] for a [float]: truncation towards zero; [None] stands for the
    [ValueError] on a NaN and the [OverflowError] on an infinity. *)
Definition int_of_float (x : float) : option Z :=
  match Prim2SF x with
  | S754_zero _ => Some 0
  | S754_finite neg m e =>
      let a := if 0 <=? e then Z.pos m * 2 ^ e else Z.pos m / 2 ^ (- e) in
      Some (if neg then - a else a)
  | _ => None
  end.

(** [math.ceil(x)]; [None] stands for its error on a NaN or an infinity. *)
Definition ceil (x : float) : option Z :=
  match Prim2SF x with
  | S754_zero _ => Some 0
  | S754_finite neg m e =>
      if 0 <=? e then Some ((if neg then -1 else 1) * (Z.pos m * 2 ^ e))
      else if neg then Some (- (Z.pos m / 2 ^ (- e)))
      else Some (- ((- Z.pos m) / 2 ^ (- e)))
  | _ => None
  end.

(** The leading run of decimal digits of [s], and the rest. *)
Fixpoint span_digits (s : string) : string * string :=
  match s with
  | String c s' =>
      if isdigit c then let '(ds, r) := span_digits s' in (String c ds, r)
      else (EmptyString, s)
  | EmptyString => (EmptyString, EmptyString)
  end.

(** The exponent part of a decimal literal: empty, or [e], a sign and at
    least one digit, up to the end of the literal. *)
Definition exponent_part (s : string) : option Z :=
  match s with
  | EmptyString => Some 0
  | String c s' =>
      if Ascii.eqb c "e" || Ascii.eqb c "E" then
        let '(neg, ds) := split_sign s' in
        if negb (is_empty ds) && string_forallb isdigit ds
        then Some (if neg then - digits_value 0 ds else digits_value 0 ds)
        else None
      else None
  end.

(** A decimal literal without sign: digits, a point, digits, an exponent,
    with at least one digit before the exponent. The result is the pair
    [(n, k)] of the literal's value [n * 10^k]. *)
Definition decimal_literal (s : string) : option (Z * Z) :=
  let '(ip, r1) := span_digits s in
  let '(fp, r2) :=
    match r1 with
    | String "." r => span_digits r
    | _ => (EmptyString, r1)
    end in
  if is_empty ip && is_empty fp then None
  else
    match exponent_part r2 with
    | Some x => Some (digits_value 0 (ip ++ fp), x - Z.of_nat (String.length fp))
    | None => None
    end.

(** [float(s)] for a [str]: blanks around, underscores between digits, a
    sign, then [inf], [infinity] or [nan] in any case, or a decimal
    literal, which is rounded to the nearest double. [None] stands for
    [ValueError]. *)
Definition float_of_str (s : string) : option float :=
  match drop_underscores None (rstrip isblank (lstrip isblank s)) with
  | None => None
  | Some t =>
      let '(neg, body) := split_sign t in
      let w := lower body in
      if String.eqb w "inf" || String.eqb w "infinity"
      then Some (if neg then neg_infinity else infinity)
      else if String.eqb w "nan" then Some nan
      else
        match decimal_literal body with
        | Some (n, k) =>
            Some (if 0 <=? k then double_of_fraction neg (n * 10 ^ k) 1
                  else double_of_fraction neg n (10 ^ (- k)))
        | None => None
        end
  end.

(** [round(x, 2)] for a [float]: the exact value of [x] is rounded to two
    decimals, ties to even, and the result is the nearest double. *)
Definition round2 (x : float) : float :=
  match Prim2SF x with
  | S754_finite neg m e =>
      let '(n, d) := scaled (Z.pos m) 1 (- e) in
      double_of_fraction neg (round_half_even (100 * n) d) 100
  | _ => x
  end.

(** *** [repr] of a float: the shortest decimal that reads back as it *)

Definition same_double (x y : spec_float) : bool :=
  match x, y with
  | S754_finite _ m e, S754_finite _ m' e' => (Z.pos m =? Z.pos m') && (e =? e')
  | S754_zero _, S754_zero _ => true
  | S754_infinity _, S754_infinity _ => true
  | _, _ => false
  end.

Definition ndigits (n : Z) : Z := Z.of_nat (String.length (str_int n)).

(** The [k] with [10^(k-1) <= n / d < 10^k], for [0 < n, d]. *)
Definition decimal_exponent (n d : Z) : Z :=
  let k := ndigits n - ndigits d in
  if (if 0 <=? k then d * 10 ^ k <=? n else d <=? n * 10 ^ (- k))
  then k + 1 else k.

(** [c * 10^p] as a fraction. *)
Definition decimal (c p : Z) : Z * Z :=
  if 0 <=? p then (c * 10 ^ p, 1) else (c, 10 ^ (- p)).

Definition reads_back (x : spec_float) (c p : Z) : bool :=
  let '(a, b) := decimal c p in same_double (nearest_double a b) x.

(** The two decimals of [nd] digits around [n / d], whose double is [x]:
    the one that reads back as [x]; when both do, the nearer one, and the
    even one when [n / d] lies half-way. *)
Definition candidate (x : spec_float) (n d nd : Z) : option (Z * Z) :=
  let p := decimal_exponent n d - nd in
  let lo := if 0 <=? p then n / (d * 10 ^ p) else n * 10 ^ (- p) / d in
  let side :=
    if 0 <=? p then 2 * n ?= (2 * lo + 1) * 10 ^ p * d
    else 2 * n * 10 ^ (- p) ?= (2 * lo + 1) * d in
  match reads_back x lo p, reads_back x (lo + 1) p with
  | true, true =>
      match side with
      | Lt => Some (lo, p)
      | Gt => Some (lo + 1, p)
      | Eq => Some (if Z.even lo then lo else lo + 1, p)
      end
  | true, false => Some (lo, p)
  | false, true => Some (lo + 1, p)
  | false, false => None
  end.

(** The shortest decimal that reads back as [x], trying [nd], [nd + 1], ...
    digits. Seventeen digits always suffice for a double, so the search
    started at one digit with seventeen steps ends in a candidate. *)
Fixpoint shortest (fuel : nat) (x : spec_float) (n d nd : Z) : Z * Z :=
  match fuel with
  | O => (n / d, 0)
  | S fuel' =>
      match candidate x n d nd with
      | Some r => r
      | None => shortest fuel' x n d (nd + 1)
      end
  end.

Fixpoint drop_trailing_zeros (s : string) : string :=
  match s with
  | EmptyString => EmptyString
  | String c s' =>
      let r := drop_trailing_zeros s' in
      if is_empty r && Ascii.eqb c "0" then EmptyString else String c r
  end.

Fixpoint string_take (n : nat) (s : string) : string :=
  match n, s with
  | S n', String c s' => String c (string_take n' s')
  | _, _ => EmptyString
  end.

Fixpoint string_drop (n : nat) (s : string) : string :=
  match n, s with
  | S n', String _ s' => string_drop n' s'
  | _, _ => s
  end.

(** The digits [ds] of a float and the position [decpt] of its point
    (the value is [0.ds * 10^decpt]), laid out as [repr] does: with an
    exponent when [decpt <= -4] or [decpt > 16], with a point otherwise. *)
Definition layout (ds : string) (decpt : Z) : string :=
  let nd := Z.of_nat (String.length ds) in
  if (decpt <=? -4) || (16 <? decpt) then
    let x := decpt - 1 in
    let xs := str_int (Z.abs x) in
    string_take 1 ds ++
    (if 1 <? nd then "." ++ string_drop 1 ds else "") ++
    "e" ++ (if x <? 0 then "-" else "+") ++
    (if Z.abs x <? 10 then "0" ++ xs else xs)
  else if decpt <=? 0 then
    "0." ++ repeat_char "0" (Z.to_nat (- decpt)) ++ ds
  else if nd <=? decpt then
    ds ++ repeat_char "0" (Z.to_nat (decpt - nd)) ++ ".0"
  else
    string_take (Z.to_nat decpt) ds ++ "." ++ string_drop (Z.to_nat decpt) ds.

(** [repr(x)], which is also [str(x)], for a [float]. *)
Definition repr_float (x : float) : string :=
  match Prim2SF x with
  | S754_nan => "nan"
  | S754_infinity neg => if neg then "-inf" else "inf"
  | S754_zero neg => if neg then "-0.0" else "0.0"
  | S754_finite neg m e =>
      let '(n, d) := scaled (Z.pos m) 1 (- e) in
      let '(c, p) := shortest 17 (S754_finite false m e) n d 1 in
      let ds := str_int c in
      (if neg then "-" else "") ++
      layout (drop_trailing_zeros ds) (Z.of_nat (String.length ds) + p)
  end.

(** *** Values *)

(** The values a decoded JSON document is made of. The pairs of a [PDict]
    have pairwise distinct keys and stand in insertion order. *)
#[warnings="-register-all"]
Inductive pyval : Type :=
  | PNone
  | PBool (b : bool)
  | PInt (n : Z)
  | PFloat (x : float)
  | PStr (s : string)
  | PList (l : list pyval)
  | PDict (kvs : list (string * pyval)).

Definition hex_digit (n : Z) : ascii :=
  if n <? 10 then chr (48 + n) else chr (87 + n).

(** The code points below 256 that [repr] writes as an escape: the
    controls, DEL, 0x80..0xA0 and the soft hyphen. *)
Definition unprintable (c : ascii) : bool :=
  between 0 31 c || between 127 160 c || (code c =? 173).

(** The double quote. *)
Definition dquote : ascii := chr 34.

Definition repr_char (quote c : ascii) : string :=
  if Ascii.eqb c quote || Ascii.eqb c "\" then String "\" (String c "")
  else if code c =? 9 then "\t"
  else if code c =? 10 then "\n"
  else if code c =? 13 then "\r"
  else if unprintable c
  then String "\" (String "x" (String (hex_digit (code c / 16))
                                      (String (hex_digit (code c mod 16)) "")))
  else String c "".

Fixpoint repr_chars (quote : ascii) (s : string) : string :=
  match s with
  | EmptyString => EmptyString
  | String c s' => repr_char quote c ++ repr_chars quote s'
  end.

(** [repr(s)] for a [str]: single quotes, unless the text has a single
    quote and no double quote. *)
Definition repr_str (s : string) : string :=
  let quote : ascii :=
    if string_existsb (Ascii.eqb "'") s && negb (string_existsb (Ascii.eqb dquote) s)
    then dquote else "'"%char in
  String quote (repr_chars quote s ++ String quote "").

Fixpoint repr (v : pyval) : string :=
  match v with
  | PNone => "None"
  | PBool b => if b then "True" else "False"
  | PInt n => str_int n
  | PFloat x => repr_float x
  | PStr s => repr_str s
  | PList l => "[" ++ join ", " (map repr l) ++ "]"
  | PDict kvs =>
      "{" ++ join ", " (map (fun kv => repr_str (fst kv) ++ ": " ++ repr (snd kv)) kvs) ++ "}"
  end.

(** [str(v)] *)
Definition str (v : pyval) : string :=
  match v with
  | PStr s => s
  | _ => repr v
  end.

(** [int(v)]; [None] stands for the exception it raises. *)
Definition int (v : pyval) : option Z :=
  match v with
  | PBool b => Some (if b then 1 else 0)
  | PInt n => Some n
  | PFloat x => int_of_float x
  | PStr s => int_of_str s
  | _ => None
  end.

(** [float(v)]; [None] stands for the exception it raises. *)
Definition float (v : pyval) : option PrimFloat.float :=
  match v with
  | PBool b => Some (if b then 1%float else 0%float)
  | PInt n => float_of_int n
  | PFloat x => Some x
  | PStr s => float_of_str s
  | _ => None
  end.

(** Truth value of [v], as [if v:] and [v or w] test it. *)
Definition truthy (v : pyval) : bool :=
  match v with
  | PNone => false
  | PBool b => b
  | PInt n => negb (n =? 0)
  | PFloat x => negb (PrimFloat.eqb x 0)
  | PStr s => negb (is_empty s)
  | PList l => match l with [] => false | _ => true end
  | PDict kvs => match kvs with [] => false | _ => true end
  end.

End Py.

(** ** The program: [backend/app.py] *)

Import Py (pyval, PNone, PBool, PInt, PFloat, PStr, PList, PDict).

Definition PLACEHOLDER_IMG : string := "https://placehold.co/160x220?text=Book".

Definition ALLOWED_PAGE_SIZES : gset Z := {[ 5; 10; 20; 50 ]}.

Definition ALLOWED_SORT_FIELDS : gset string :=
  {[ "title"; "author"; "year"; "rating"; "price"; "created_at" ]}.

Definition CATEGORY_OPTIONS : list string :=
  [ "Fantasy"; "Sci-Fi"; "Classic"; "Horror"; "Mystery"; "Non-Fiction"; "Other" ].

(** A row of the [books] table. [created_at] is a point in time, counted
    in microseconds. *)
Record Book : Type := {
  id : Z;
  title : string;
  author : string;
  year : Z;
  category : string;
  rating : float;
  price : float;
  image_url : string;
  created_at : Z;
}.

(** The JSON object [book_to_dict] makes of a row. [createdAt] keeps the
    point in time that [isoformat()] writes out. *)
Record BookDict : Type := {
  d_id : Z;
  d_title : string;
  d_author : string;
  d_year : Z;
  d_category : string;
  d_rating : float;
  d_price : float;
  d_imageUrl : string;
  d_createdAt : option Z;
}.

(** [x or 0.0] for a float [x]: both zeros are false, a NaN is true. *)
Definition or_zero (x : float) : float :=
  if PrimFloat.eqb x 0 then 0%float else x.

Definition book_to_dict (b : Book) : BookDict := {|
  d_id := id b;
  d_title := title b;
  d_author := author b;
  d_year := year b;
  d_category := category b;
  d_rating := Py.round2 (or_zero (rating b));
  d_price := Py.round2 (or_zero (price b));
  d_imageUrl := image_url b;
  d_createdAt := Some (created_at b);
|}.

(** [_safe_int(val, default)]: an [int], or the default, which is an [int]
    or [None]. *)
Definition _safe_int (val : pyval) (default : option Z) : option Z :=
  match Py.int val with
  | Some n => Some n
  | None => default
  end.

Definition _safe_float (val : pyval) (default : option float) : option float :=
  match Py.float val with
  | Some x => Some x
  | None => default
  end.

(** [data.get(key, default)] *)
Definition get (data : gmap string pyval) (key : string) (default : pyval) : pyval :=
  match data !! key with
  | Some v => v
  | None => default
  end.

(** The [cleaned] dictionary of the validator: its seven keys. *)
Record Cleaned : Type := {
  c_title : string;
  c_author : string;
  c_year : Z;
  c_category : string;
  c_rating : float;
  c_price : float;
  c_image_url : string;
}.

(** [s or "Other"] *)
Definition or_other (s : string) : string :=
  if Py.is_empty s then "Other" else s.

(** The validator returns the pair of an error message and a cleaned
    record, one of them [None]. The dash of the message on the rating is
    U+2013, written here by its three bytes in UTF-8. *)
Definition validate_book_payload (data : gmap string pyval)
  : option string * option Cleaned :=
  let title := Py.strip (Py.str (get data "title" (PStr ""))) in
  let author := Py.strip (Py.str (get data "author" (PStr ""))) in
  let year := _safe_int (get data "year" PNone) None in
  let category := or_other (Py.strip (Py.str (get data "category" (PStr "Other")))) in
  let rating := _safe_float (get data "rating" (PInt 0)) None in
  let price := _safe_float (get data "price" (PInt 0)) None in
  let image_url := Py.strip (Py.str (get data "imageUrl" (PStr ""))) in
  if Py.is_empty title then (Some "Title is required.", None)
  else if Py.is_empty author then (Some "Author is required.", None)
  else
    match year with
    | None => (Some "Year is required (number).", None)
    | Some year =>
        if (year <? 0) || (2100 <? year)
        then (Some "Year must be between 0 and 2100.", None)
        else
          let category :=
            if bool_decide (category ∈ CATEGORY_OPTIONS) then category else "Other" in
          match rating with
          | None => (Some "Rating must be a number.", None)
          | Some rating =>
              if PrimFloat.ltb rating 0 || PrimFloat.ltb 5 rating
              then (Some "Rating must be 0–5.", None)
              else
                match price with
                | None => (Some "Price must be a number.", None)
                | Some price =>
                    if PrimFloat.ltb price 0
                    then (Some "Price must be >= 0.", None)
                    else
                      let image_url :=
                        if Py.is_empty image_url then PLACEHOLDER_IMG else image_url in
                      (None, Some {|
                         c_title := title;
                         c_author := author;
                         c_year := year;
                         c_category := category;
                         c_rating := rating;
                         c_price := price;
                         c_image_url := image_url;
                       |})
                end
          end
    end.

(** *** The table and the responses *)

(** The [books] table with the sequence that gives a new row its [id].
    A commit is taken to succeed: the lengths declared for the text
    columns are not part of the model. *)
Record Database : Type := {
  rows : list Book;
  next_id : Z;
}.

Record Listing : Type := {
  l_items : list BookDict;
  l_total : Z;
  l_page : Z;
  l_pageSize : Z;
  l_totalPages : Z;
}.

Record Stats : Type := {
  s_total : Z;
  s_pageSize : Z;
  s_averagePublicationYear : Z;
  s_averageRating : float;
  s_totalValue : float;
  s_countByCategory : gmap string Z;
}.

(** The JSON bodies of the API. *)
Inductive Body : Type :=
  | ErrorBody (error : string)
  | BookBody (b : BookDict)
  | OkBody
  | ListingBody (l : Listing)
  | StatsBody (s : Stats).

(** What a handler gives back: [jsonify(body), status], or an exception
    that leaves the handler, which the framework answers with status 500. *)
Inductive Response : Type :=
  | Json (body : Body) (status : Z)
  | Unhandled.

Definition status_of (r : Response) : Z :=
  match r with
  | Json _ st => st
  | Unhandled => 500
  end.

(** *** The listing *)

(** [text LIKE pattern]: [%] stands for any run of characters, [_] for any
    one character, and a backslash takes the next character literally. *)
Fixpoint like (pattern : string) : string -> bool :=
  match pattern with
  | EmptyString => Py.is_empty
  | String c p =>
      if Ascii.eqb c "%" then
        fix any (text : string) : bool :=
          like p text ||
          match text with
          | EmptyString => false
          | String _ t => any t
          end
      else if Ascii.eqb c "_" then
        fun text =>
          match text with
          | EmptyString => false
          | String _ t => like p t
          end
      else if Ascii.eqb c "\" then
        match p with
        | EmptyString => fun _ => false
        | String c' p' =>
            fun text =>
              match text with
              | EmptyString => false
              | String x t => Ascii.eqb x c' && like p' t
              end
        end
      else
        fun text =>
          match text with
          | EmptyString => false
          | String x t => Ascii.eqb x c && like p t
          end
  end.

(** [column.ilike(pattern)]: [LIKE] on the lower-cased text and pattern. *)
Definition ilike (text pattern : string) : bool :=
  like (Py.lower pattern) (Py.lower text).

(** The order of a column. Texts compare by code points; a NaN is above
    every other float, as the database orders it. *)
Definition float_le (x y : float) : bool :=
  if PrimFloat.is_nan y then true
  else if PrimFloat.is_nan x then false
  else PrimFloat.leb x y.

Definition column_le (sort_by : string) (a b : Book) : bool :=
  if String.eqb sort_by "title" then String.leb (title a) (title b)
  else if String.eqb sort_by "author" then String.leb (author a) (author b)
  else if String.eqb sort_by "year" then year a <=? year b
  else if String.eqb sort_by "rating" then float_le (rating a) (rating b)
  else if String.eqb sort_by "price" then float_le (price a) (price b)
  else created_at a <=? created_at b.

Fixpoint insert_sorted (le : Book -> Book -> bool) (x : Book) (l : list Book)
  : list Book :=
  match l with
  | [] => [x]
  | y :: l' => if le x y then x :: l else y :: insert_sorted le x l'
  end.

(** [query.order_by(...)]: rows that compare equal keep the order of the
    table. *)
Definition order_by (sort_by sort_dir : string) (l : list Book) : list Book :=
  if String.eqb sort_dir "asc"
  then foldr (insert_sorted (column_le sort_by)) [] l
  else foldr (insert_sorted (fun a b => column_le sort_by b a)) [] l.

(** [request.args.get(key, default)] *)
Definition arg (args : gmap string string) (key : string) (default : pyval) : pyval :=
  match args !! key with
  | Some s => PStr s
  | None => default
  end.

(** [max(1, math.ceil(total / page_size)) if total else 1]; [None] stands
    for an exception of [math.ceil]. *)
Definition page_count (total page_size : Z) : option Z :=
  if total =? 0 then Some 1
  else Z.max 1 <$> Py.ceil (Py.truediv total page_size).

Definition get_books (args : gmap string string) (db : Database) : Response :=
  match _safe_int (arg args "page" (PInt 1)) (Some 1),
        _safe_int (arg args "pageSize" (PInt 10)) (Some 10) with
  | Some page, Some page_size =>
      let q := Py.strip (Py.str (arg args "q" (PStr ""))) in
      let cat := Py.strip (Py.str (arg args "category" (PStr ""))) in
      let sort_by := Py.strip (Py.str (arg args "sortBy" (PStr "created_at"))) in
      let sort_dir := Py.lower (Py.strip (Py.str (arg args "sortDir" (PStr "desc")))) in
      let page := if page <? 1 then 1 else page in
      let page_size :=
        if bool_decide (page_size ∈ ALLOWED_PAGE_SIZES) then page_size else 10 in
      let sort_by :=
        if bool_decide (sort_by ∈ ALLOWED_SORT_FIELDS) then sort_by else "created_at" in
      let sort_dir :=
        if String.eqb sort_dir "asc" || String.eqb sort_dir "desc"
        then sort_dir else "desc" in
      let query := rows db in
      let query :=
        if negb (Py.is_empty q) then
          let like := "%" ++ q ++ "%" in
          filter (fun b => ilike (title b) like || ilike (author b) like = true) query
        else query in
      let query :=
        if negb (Py.is_empty cat)
        then filter (fun b => String.eqb (category b) cat = true) query
        else query in
      let total := Z.of_nat (length query) in
      let query := order_by sort_by sort_dir query in
      let offset := (page - 1) * page_size in
      let items := take (Z.to_nat page_size) (drop (Z.to_nat offset) query) in
      match page_count total page_size with
      | Some total_pages =>
          let page :=
            if (total_pages <? page) && (0 <? total) then total_pages else page in
          Json (ListingBody {|
                  l_items := book_to_dict <$> items;
                  l_total := total;
                  l_page := page;
                  l_pageSize := page_size;
                  l_totalPages := total_pages;
                |}) 200
      | None => Unhandled
      end
  | _, _ => Unhandled
  end.

(** *** Create, update, delete *)

(** [request.get_json(silent=True) or {}], ready for [data.get]: the body
    is [None] when the request carries no JSON; a body that is false
    gives the empty dictionary; [None] as a result stands for a value
    without [get], on which the validator raises. *)
Definition json_or_empty (body : option pyval) : option (gmap string pyval) :=
  match body with
  | None => Some ∅
  | Some v =>
      if Py.truthy v then
        match v with
        | PDict kvs => Some (list_to_map kvs)
        | _ => None
        end
      else Some ∅
  end.

(** [if err:] on the first component of the validator's result. *)
Definition is_error (err : option string) : bool :=
  match err with
  | Some e => negb (Py.is_empty e)
  | None => false
  end.

(** The [Book] made of the keys of [cleaned], once the insert gave it
    [id] and [created_at]. *)
Definition new_book (i now : Z) (c : Cleaned) : Book := {|
  id := i;
  title := c_title c;
  author := c_author c;
  year := c_year c;
  category := c_category c;
  rating := c_rating c;
  price := c_price c;
  image_url := c_image_url c;
  created_at := now;
|}.

(** [for k, v in cleaned.items(): setattr(b, k, v)] *)
Definition set_attrs (c : Cleaned) (b : Book) : Book := {|
  id := id b;
  title := c_title c;
  author := c_author c;
  year := c_year c;
  category := c_category c;
  rating := c_rating c;
  price := c_price c;
  image_url := c_image_url c;
  created_at := created_at b;
|}.

(** [db.query(Book).filter(Book.id == book_id).first()] *)
Definition first_by_id (book_id : Z) (l : list Book) : option Book :=
  List.find (fun b => id b =? book_id) l.

(** The handler of [POST /api/books]; [now] is the clock at the insert. *)
Definition create_book (now : Z) (body : option pyval) (db : Database)
  : Response * Database :=
  match json_or_empty body with
  | None => (Unhandled, db)
  | Some data =>
      let '(err, cleaned) := validate_book_payload data in
      if is_error err then (Json (ErrorBody (default "" err)) 400, db)
      else
        match cleaned with
        | None => (Unhandled, db)
        | Some c =>
            let b := new_book (next_id db) now c in
            (Json (BookBody (book_to_dict b)) 201,
             {| rows := rows db ++ [b]; next_id := next_id db + 1 |})
        end
  end.

(** The handler of [PUT /api/books/<int:book_id>]. *)
Definition update_book (book_id : Z) (body : option pyval) (db : Database)
  : Response * Database :=
  match json_or_empty body with
  | None => (Unhandled, db)
  | Some data =>
      let '(err, cleaned) := validate_book_payload data in
      if is_error err then (Json (ErrorBody (default "" err)) 400, db)
      else
        match first_by_id book_id (rows db) with
        | None => (Json (ErrorBody "Book not found.") 404, db)
        | Some b =>
            match cleaned with
            | None => (Unhandled, db)
            | Some c =>
                let b' := set_attrs c b in
                (Json (BookBody (book_to_dict b')) 200,
                 {| rows := (fun r => if id r =? book_id then set_attrs c r else r)
                              <$> rows db;
                    next_id := next_id db |})
            end
        end
  end.

(** The handler of [DELETE /api/books/<int:book_id>]. *)
Definition delete_book (book_id : Z) (db : Database) : Response * Database :=
  match first_by_id book_id (rows db) with
  | None => (Json (ErrorBody "Book not found.") 404, db)
  | Some b =>
      (Json OkBody 200,
       {| rows := List.filter (fun r => negb (id r =? book_id)) (rows db);
          next_id := next_id db |})
  end.

(** *** Statistics *)









(** ** More of the program: start-up and metadata *)

From Stdlib Require Import DecimalPos Sorted.

(** *** More builtins *)

Module PyExtra.

(** [s.startswith(prefix)] *)
Fixpoint startswith (s prefix : string) : bool :=
  match prefix, s with
  | EmptyString, _ => true
  | String p prefix', String c s' => Ascii.eqb c p && startswith s' prefix'
  | String _ _, EmptyString => false
  end.

(** [s.replace(old, new, 1)]: the first occurrence of [old] in [s], from
    the left, is replaced. *)
Fixpoint replace_first (s old new : string) : string :=
  if startswith s old then new ++ Py.string_drop (String.length old) s
  else
    match s with
    | EmptyString => EmptyString
    | String c s' => String c (replace_first s' old new)
    end.

(** [round(x, ndigits)] for a [float] and [0 <= ndigits]: the exact value
    of [x] is rounded to [ndigits] decimals, ties to even, and the result
    is the nearest double. *)
Definition round_to (ndigits : Z) (x : float) : float :=
  match Prim2SF x with
  | S754_finite neg m e =>
      let '(n, d) := Py.scaled (Z.pos m) 1 (- e) in
      Py.double_of_fraction neg (Py.round_half_even (10 ^ ndigits * n) d)
                            (10 ^ ndigits)
  | _ => x
  end.

Fixpoint insert_into {A : Type} (le : A -> A -> bool) (x : A) (l : list A) : list A :=
  match l with
  | [] => [x]
  | y :: l' => if le y x then y :: insert_into le x l' else x :: l
  end.

(** [sorted(l)], for the order [le]. *)
Definition sorted {A : Type} (le : A -> A -> bool) (l : list A) : list A :=
  fold_left (fun acc x => insert_into le x acc) l [].

End PyExtra.

(** *** The database URL *)

(** [_get_database_url()], for the value [env] of the environment
    variable [DATABASE_URL], [None] when it is not set. The result [None]
    stands for the [RuntimeError]. *)
Definition _get_database_url (env : option string) : option string :=
  let url := Py.strip (default "" env) in
  if Py.is_empty url then None
  else if PyExtra.startswith url "postgres://"
  then Some (PyExtra.replace_first url "postgres://" "postgresql://")
  else Some url.

(** *** Metadata *)

(** The JSON object of [GET /api/meta]. *)
Record Meta : Type := {
  m_pageSizes : list Z;
  m_categories : list string;
  m_sortFields : list string;
  m_placeholderImage : string;
}.

(** The handler of [GET /api/meta]. *)
Definition meta : Meta := {|
  m_pageSizes := PyExtra.sorted Z.leb (elements ALLOWED_PAGE_SIZES);
  m_categories := CATEGORY_OPTIONS;
  m_sortFields := PyExtra.sorted String.leb (elements ALLOWED_SORT_FIELDS);
  m_placeholderImage := PLACEHOLDER_IMG;
|}.

(** *** Seeding *)

(** A row of [books.json], a list of objects with the keys [title],
    [author] and [year]: the title and the author are texts when they
    are there, the year is any value. *)
Record SeedRow : Type := {
  sr_title : option string;
  sr_author : option string;
  sr_year : option pyval;
}.

(** The seed used when the file is missing or holds no row. *)
Definition fallback_rows : list SeedRow :=
  [ {| sr_title := Some "The Hobbit"; sr_author := Some "J.R.R. Tolkien";
       sr_year := Some (PInt 1937) |};
    {| sr_title := Some "1984"; sr_author := Some "George Orwell";
       sr_year := Some (PInt 1949) |} ].

(** [round(((i * 37) % 50) / 10, 1)] *)
Definition seed_rating (i : Z) : float :=
  PyExtra.round_to 1 (Py.truediv ((i * 37) mod 50) 10).

(** [round(5 + ((i * 19) % 300) / 10, 2)] *)
Definition seed_price (i : Z) : float :=
  Py.round2 (PrimFloat.add 5 (Py.truediv ((i * 19) mod 300) 10)).

(** The book made of the [i]-th row of the seed, with the id and the
    time of its insert; [None] stands for an exception, of [int] on the
    year or of the index into the categories. *)
Definition seed_book (i : Z) (row : SeedRow) (new_id now : Z) : option Book :=
  match CATEGORY_OPTIONS !! Z.to_nat (i mod Z.of_nat (length CATEGORY_OPTIONS)),
        Py.int (default (PInt 2000) (sr_year row)) with
  | Some cat, Some y =>
      Some {| id := new_id;
              title := default ("Book " ++ Py.str_int i) (sr_title row);
              author := default "Unknown" (sr_author row);
              year := y;
              category := cat;
              rating := seed_rating i;
              price := seed_price i;
              image_url := "https://placehold.co/160x220?text=Book+" ++ Py.str_int i;
              created_at := now |}
  | _, _ => None
  end.

(** The loop over [enumerate(seed_rows, start=1)], from the index [i] on:
    the books to insert, with consecutive ids from [new_id]. The clock
    gives the time at which the row of an id is inserted. *)
Fixpoint seed_books (clock : Z -> Z) (i new_id : Z) (seed_rows : list SeedRow)
  : option (list Book) :=
  match seed_rows with
  | [] => Some []
  | row :: rest =>
      match seed_book i row new_id (clock new_id),
            seed_books clock (i + 1) (new_id + 1) rest with
      | Some b, Some bs => Some (b :: bs)
      | _, _ => None
      end
  end.

(** The book the top-up loop makes for the count [count2]. *)
Definition top_up_book (count2 new_id now : Z) : Book :=
  let i := count2 + 1 in
  {| id := new_id;
     title := "Seed Book " ++ Py.str_int i;
     author := "Seed Author";
     year := 2000 + i mod 20;
     category := "Other";
     rating := 3.5;
     price := 0x1.3fae147ae147bp+3;
     image_url := "https://placehold.co/160x220?text=Seed+" ++ Py.str_int i;
     created_at := now |}.

(** [while count2 < 30: ...], with fuel for its steps. *)
Fixpoint top_up (clock : Z -> Z) (fuel : nat) (count2 : Z) (db : Database)
  : Database :=
  match fuel with
  | O => db
  | S fuel' =>
      if count2 <? 30 then
        top_up clock fuel' (count2 + 1)
          {| rows := rows db ++ [top_up_book count2 (next_id db) (clock (next_id db))];
             next_id := next_id db + 1 |}
      else db
  end.

(** [seed_if_needed()], run on the table [db] with the rows of
    [books.json], [None] when the file is missing. The result [None]
    stands for an exception, which leaves the table as it was and stops
    the start-up. Thirty steps of fuel are enough for the top-up, which
    starts from a count that is not negative. *)
Definition seed_if_needed (clock : Z -> Z) (file : option (list SeedRow))
                          (db : Database) : option Database :=
  let count := Z.of_nat (length (rows db)) in
  if 30 <=? count then Some db
  else
    let seed_rows := default [] file in
    let seed_rows :=
      match seed_rows with
      | [] => fallback_rows
      | _ => seed_rows
      end in
    match seed_books clock 1 (next_id db) seed_rows with
    | None => None
    | Some bs =>
        let db1 := {| rows := rows db ++ bs;
                      next_id := next_id db + Z.of_nat (length bs) |} in
        Some (top_up clock 30 (Z.of_nat (length (rows db1))) db1)
    end.
(** * Notions of the specification *)

(** ** Texts *)

(** A text whose first character is not white space. *)
Definition starts_visible (s : string) : bool :=
  match s with
  | EmptyString => false
  | String c _ => negb (Py.isspace c)
  end.

(** A text that is empty or starts with such a character. *)
Definition head_visible (s : string) : bool :=
  match s with
  | EmptyString => true
  | String c _ => negb (Py.isspace c)
  end.

(** ** Floats *)

(** The fraction [a / b] lies in [[1, 2)]. *)
Definition in_binade (ab : Z * Z) : Prop := snd ab <= fst ab < 2 * snd ab.

(** ** The validator *)

(** The fields as the validator reads them. *)
Definition title_read (data : gmap string pyval) : string :=
  Py.strip (Py.str (get data "title" (PStr ""))).

Definition author_read (data : gmap string pyval) : string :=
  Py.strip (Py.str (get data "author" (PStr ""))).

Definition year_read (data : gmap string pyval) : option Z :=
  _safe_int (get data "year" PNone) None.

Definition category_read (data : gmap string pyval) : string :=
  Py.strip (Py.str (get data "category" (PStr "Other"))).

Definition rating_read (data : gmap string pyval) : option float :=
  _safe_float (get data "rating" (PInt 0)) None.

Definition price_read (data : gmap string pyval) : option float :=
  _safe_float (get data "price" (PInt 0)) None.

Definition image_url_read (data : gmap string pyval) : string :=
  Py.strip (Py.str (get data "imageUrl" (PStr ""))).

(** The eight rules of the validator, in the order of the specification. *)
Inductive Rule : Type :=
  | TitlePresent
  | AuthorPresent
  | YearNumeric
  | YearInRange
  | RatingNumeric
  | RatingInRange
  | PriceNumeric
  | PriceInRange.


Definition message (r : Rule) : string :=
  match r with
  | TitlePresent => "Title is required."
  | AuthorPresent => "Author is required."
  | YearNumeric => "Year is required (number)."
  | YearInRange => "Year must be between 0 and 2100."
  | RatingNumeric => "Rating must be a number."
  | RatingInRange => "Rating must be 0–5."
  | PriceNumeric => "Price must be a number."
  | PriceInRange => "Price must be >= 0."
  end.

(** When a rule fails on a payload. A range rule fails on a number that
    the comparison finds outside the range, which it never does of a NaN;
    it has nothing to say of a field that is not a number. *)
Definition fails (data : gmap string pyval) (r : Rule) : bool :=
  match r with
  | TitlePresent => Py.is_empty (title_read data)
  | AuthorPresent => Py.is_empty (author_read data)
  | YearNumeric => bool_decide (year_read data = None)
  | YearInRange =>
      match year_read data with
      | Some y => (y <? 0) || (2100 <? y)
      | None => false
      end
  | RatingNumeric => bool_decide (rating_read data = None)
  | RatingInRange =>
      match rating_read data with
      | Some x => PrimFloat.ltb x 0 || PrimFloat.ltb 5 x
      | None => false
      end
  | PriceNumeric => bool_decide (price_read data = None)
  | PriceInRange =>
      match price_read data with
      | Some x => PrimFloat.ltb x 0
      | None => false
      end
  end.

(** The record the validator builds when no rule fails. *)
Definition cleaned_of (data : gmap string pyval) (y : Z) (r p : float) : Cleaned := {|
  c_title := title_read data;
  c_author := author_read data;
  c_year := y;
  c_category :=
    if bool_decide (or_other (category_read data) ∈ CATEGORY_OPTIONS)
    then or_other (category_read data) else "Other";
  c_rating := r;
  c_price := p;
  c_image_url :=
    if Py.is_empty (image_url_read data) then PLACEHOLDER_IMG else image_url_read data;
|}.


(** A payload with a title, an author and a year, and nothing else. *)
Definition dune_fields : list (string * pyval) :=
  [ ("title", PStr "Dune"); ("author", PStr "Frank Herbert"); ("year", PInt 1965) ].

Definition dune : gmap string pyval := list_to_map dune_fields.

Definition empty_db : Database := {| rows := []; next_id := 1 |}.

(** ** The table *)

(** The row [b] after an update with the cleaned record [c]: the seven
    fields of [c], and the [id] and [created_at] of [b]. *)
Definition overwritten (c : Cleaned) (b : Book) : Book := {|
  id := id b;
  title := c_title c;
  author := c_author c;
  year := c_year c;
  category := c_category c;
  rating := c_rating c;
  price := c_price c;
  image_url := c_image_url c;
  created_at := created_at b;
|}.

Definition not_found : Response := Json (ErrorBody "Book not found.") 404.

(** A payload without an author. *)
Definition no_author : pyval := PDict [ ("title", PStr "Dune") ].

(** The table with the one row the create handler makes of [dune]. *)
Definition one_book : Database :=
  snd (create_book 0 (Some (PDict dune_fields)) empty_db).

(** ** The listing *)

(** The parameters of a listing request, as the handler resolves them. *)
Definition page_arg (args : gmap string string) : option Z :=
  Py.int (arg args "page" (PInt 1)).

Definition page_size_arg (args : gmap string string) : option Z :=
  Py.int (arg args "pageSize" (PInt 10)).

Definition q_arg (args : gmap string string) : string :=
  Py.strip (Py.str (arg args "q" (PStr ""))).

Definition category_arg (args : gmap string string) : string :=
  Py.strip (Py.str (arg args "category" (PStr ""))).

Definition sort_by_arg (args : gmap string string) : string :=
  Py.strip (Py.str (arg args "sortBy" (PStr "created_at"))).

Definition sort_dir_arg (args : gmap string string) : string :=
  Py.lower (Py.strip (Py.str (arg args "sortDir" (PStr "desc")))).

Definition resolved_page (args : gmap string string) : Z :=
  Z.max 1 (default 1 (page_arg args)).

Definition resolved_page_size (args : gmap string string) : Z :=
  let n := default 10 (page_size_arg args) in
  if bool_decide (n ∈ ALLOWED_PAGE_SIZES) then n else 10.

Definition resolved_sort_by (args : gmap string string) : string :=
  if bool_decide (sort_by_arg args ∈ ALLOWED_SORT_FIELDS)
  then sort_by_arg args else "created_at".

Definition resolved_sort_dir (args : gmap string string) : string :=
  if bool_decide (sort_dir_arg args ∈ [ "asc"; "desc" ])
  then sort_dir_arg args else "desc".

(** A record matches the filters of a request: the free text [q], when
    there is one, is found in its title or in its author, and the
    category, when there is one, is its category. *)
Definition matches (q cat : string) (b : Book) : Prop :=
  (q = "" ∨ ilike (title b) ("%" ++ q ++ "%") = true
          ∨ ilike (author b) ("%" ++ q ++ "%") = true) ∧
  (cat = "" ∨ category b = cat).

#[global] Instance matches_dec q cat b : Decision (matches q cat b).
Proof. unfold matches. apply _. Defined.

(** The records of the table that match the filters of the request. *)
Definition matching (args : gmap string string) (db : Database) : list Book :=
  filter (matches (q_arg args) (category_arg args)) (rows db).

(** The matching records in the order of the request. *)
Definition ordered (args : gmap string string) (db : Database) : list Book :=
  order_by (resolved_sort_by args) (resolved_sort_dir args) (matching args db).

(** The records on page [page] of the ordered matching records. *)
Definition page_of (args : gmap string string) (db : Database) (page : Z) : list Book :=
  take (Z.to_nat (resolved_page_size args))
       (drop (Z.to_nat ((page - 1) * resolved_page_size args)) (ordered args db)).





(** ** Statistics *)





(** ** More notions *)

(** A character that [LIKE] reads neither as a wildcard nor as the
    escape, and a text of such characters. *)
Definition plain_char (c : ascii) : bool :=
  negb (Ascii.eqb c "%" || Ascii.eqb c "_" || Ascii.eqb c "\").

Definition plain (s : string) : bool := Py.string_forallb plain_char s.

(** The keys the validator reads. *)
Definition validator_keys : list string :=
  [ "title"; "author"; "year"; "category"; "rating"; "price"; "imageUrl" ].

(** A cleaned record, written back as a payload. *)
Definition payload_of (c : Cleaned) : gmap string pyval :=
  {[ "title" := PStr (c_title c);
     "author" := PStr (c_author c);
     "year" := PInt (c_year c);
     "category" := PStr (c_category c);
     "rating" := PFloat (c_rating c);
     "price" := PFloat (c_price c);
     "imageUrl" := PStr (c_image_url c) ]}.

(** A body that [get_json] or the [or] turns into the empty payload. *)
Definition empty_body (body : option pyval) : bool :=
  match body with
  | None => true
  | Some v => negb (Py.truthy v)
  end.

(** A body that is true and is not a JSON object. *)
Definition no_object (body : option pyval) : bool :=
  match body with
  | Some (PDict _) | None => false
  | Some v => Py.truthy v
  end.

(** The ids of a table are pairwise distinct and below the next id of
    the sequence. *)
Definition db_wf (db : Database) : Prop :=
  NoDup (id <$> rows db) ∧ Forall (λ b, id b < next_id db) (rows db).





(** The items of the listing that answers a request, none when the
    handler does not answer with a listing. *)
Definition items_of (r : Response) : list BookDict :=
  match r with
  | Json (ListingBody l) _ => l_items l
  | _ => []
  end.

(** The rows a seeding inserts: those of the file, or the fallback. *)
Definition effective_seed (file : option (list SeedRow)) : list SeedRow :=
  match default [] file with
  | [] => fallback_rows
  | l => l
  end.


(** The ranges the seeding names for the fields it makes up: a category
    of the options, a rating from 0.0 to 4.9 and a price from 5.00 to
    34.90. *)
Definition in_seed_range (b : Book) : Prop :=
  category b ∈ CATEGORY_OPTIONS ∧
  PrimFloat.leb 0 (rating b) = true ∧
  PrimFloat.leb (rating b) 0x1.399999999999ap+2 = true ∧
  PrimFloat.leb 5 (price b) = true ∧
  PrimFloat.leb (price b) 0x1.1733333333333p+5 = true.
(** * Properties *)

(** ** The builtins at work *)

Section Builtins.

Import Py.

Example strip_blanks : strip "  Dune " = "Dune" ∧ strip "   " = "".
Proof. by vm_compute. Qed.

Example int_of_padded_digits :
  int_of_str " 1_965 " = Some 1965 ∧ int_of_str "-7" = Some (-7) ∧
  int_of_str "19.65" = None ∧ int_of_str "" = None.
Proof. by vm_compute. Qed.

Example int_of_values :
  int (PFloat 0x1.f4p+10) = Some 2000 ∧ int (PBool true) = Some 1 ∧
  int PNone = None ∧ int (PFloat nan) = None ∧ int (PList []) = None.
Proof. by vm_compute. Qed.

Example float_of_decimals :
  float_of_str "0.1" = Some 0x1.999999999999ap-4%float ∧
  float_of_str " 5.01" = Some 0x1.40a3d70a3d70ap+2%float ∧
  float_of_str "1e23" = Some 0x1.52d02c7e14af6p+76%float ∧
  float_of_str "-INF" = Some neg_infinity ∧
  float_of_str "nan" = Some nan ∧
  float_of_str "5,0" = None.
Proof. by vm_compute. Qed.

Example float_of_ints :
  float_of_int 5 = Some 5%float ∧
  float_of_int 9007199254740993 = Some 9007199254740992%float ∧
  float_of_int (2 ^ 1024) = None.
Proof. by vm_compute. Qed.

Example round2_ties_and_halves :
  round2 0x1.5666666666666p+1 = 0x1.55c28f5c28f5cp+1%float ∧
  round2 0.125 = 0x1.eb851eb851eb8p-4%float ∧
  round2 nan = nan.
Proof. by vm_compute. Qed.

Example repr_of_floats :
  repr_float 0x1.999999999999ap-4 = "0.1" ∧
  repr_float 0x1p-44 = "5.684341886080802e-14" ∧
  repr_float 0x1.52d02c7e14af6p+76 = "1e+23" ∧
  repr_float 2000 = "2000.0" ∧
  repr_float (-0) = "-0.0".
Proof. by vm_compute. Qed.

Example str_of_values :
  str PNone = "None" ∧ str (PBool true) = "True" ∧ str (PInt (-12)) = "-12" ∧
  str (PStr " x ") = " x " ∧
  str (PList [PInt 1; PStr "a"; PNone]) = "[1, 'a', None]" ∧
  str (PDict [("k", PFloat 1.5)]) = "{'k': 1.5}".
Proof. by vm_compute. Qed.

Example ceil_of_quotients :
  ceil (truediv 7 5) = Some 2 ∧ ceil (truediv 10 5) = Some 2 ∧
  ceil (truediv 1 50) = Some 1.
Proof. by vm_compute. Qed.

End Builtins.

(** ** The builtins: texts and floats *)

Section Strings.

Import Py.

Lemma strip_visible s : starts_visible s = true → is_empty (strip s) = false.
Proof.
  destruct s as [|c s]; [done|]. simpl. intros Hc%negb_true_iff.
  unfold strip. simpl. rewrite Hc. simpl. rewrite Hc.
  by rewrite andb_false_r.
Qed.

Lemma starts_visible_app s t :
  starts_visible s = true → starts_visible (s ++ t) = true.
Proof. by destruct s. Qed.

Lemma head_visible_app s t :
  head_visible s = true → starts_visible t = true → starts_visible (s ++ t) = true.
Proof. by destruct s. Qed.

Lemma head_visible_take n s : head_visible s = true → head_visible (string_take n s) = true.
Proof. by destruct n, s. Qed.

Lemma head_visible_drop_trailing_zeros s :
  head_visible s = true → head_visible (drop_trailing_zeros s) = true.
Proof.
  destruct s as [|c s]; [done|]. simpl. intros Hc.
  by destruct (is_empty (drop_trailing_zeros s) && Ascii.eqb c "0").
Qed.

Lemma head_visible_string_of_uint d :
  starts_visible (NilZero.string_of_uint d) = true.
Proof. by destruct d. Qed.

Lemma starts_visible_str_int n : starts_visible (str_int n) = true.
Proof.
  unfold str_int. destruct n as [|p|p]; simpl; [done| |done].
  apply head_visible_string_of_uint.
Qed.

Lemma starts_head_visible s : starts_visible s = true → head_visible s = true.
Proof. by destruct s. Qed.

Lemma starts_visible_repeat_zero n t :
  starts_visible t = true → starts_visible (repeat_char "0" n ++ t) = true.
Proof. by destruct n. Qed.

Lemma starts_visible_layout ds decpt :
  head_visible ds = true → starts_visible (layout ds decpt) = true.
Proof.
  intros Hds. unfold layout.
  destruct ((decpt <=? -4) || (16 <? decpt)).
  - apply head_visible_app; [by apply head_visible_take|].
    destruct (1 <? Z.of_nat (String.length ds)); [done|].
    by destruct (decpt - 1 <? 0).
  - destruct (decpt <=? 0); [done|].
    destruct (Z.of_nat (String.length ds) <=? decpt).
    + apply head_visible_app; [done|]. by apply starts_visible_repeat_zero.
    + apply head_visible_app; [by apply head_visible_take | done].
Qed.

Lemma starts_visible_repr_float x : starts_visible (repr_float x) = true.
Proof.
  unfold repr_float. destruct (Prim2SF x) as [[]|[]| |neg m e]; try done.
  destruct (scaled (Z.pos m) 1 (- e)) as [n d].
  destruct (shortest 17 (S754_finite false m e) n d 1) as [c p].
  destruct neg; [done|]. simpl.
  apply starts_visible_layout, head_visible_drop_trailing_zeros,
    starts_head_visible, starts_visible_str_int.
Qed.

Lemma starts_visible_repr v : starts_visible (repr v) = true.
Proof.
  destruct v as [|[]|n|x|s|l|kvs]; try done.
  - apply starts_visible_str_int.
  - apply starts_visible_repr_float.
  - simpl. unfold repr_str.
    by destruct (string_existsb (Ascii.eqb "'") s &&
                 negb (string_existsb (Ascii.eqb dquote) s)).
Qed.

(** [str(v).strip()] is not empty unless [v] is a string. *)
Lemma strip_str_nonempty v :
  (∀ s, v ≠ PStr s) → is_empty (strip (str v)) = false.
Proof.
  intros Hv. apply strip_visible.
  destruct v; try apply starts_visible_repr. by destruct (Hv s).
Qed.

End Strings.

Section Floats.

Import Py.

Lemma scaled_spec n d e :
  scaled n d e = if 0 <=? e then (n, d * 2 ^ e) else (n * 2 ^ (- e), d).
Proof. reflexivity. Qed.

Lemma pow2_pos k : 0 <= k -> 0 < 2 ^ k.
Proof. intros. by apply Z.pow_pos_nonneg. Qed.

Lemma pow2_succ k : 0 <= k -> 2 ^ (k + 1) = 2 * 2 ^ k.
Proof. intros. rewrite Z.pow_add_r by lia. lia. Qed.

Lemma binade_spec n d :
  0 < n -> 0 < d -> in_binade (scaled n d (binade n d)).
Proof.
  intros Hn Hd. unfold binade.
  pose proof (Z.log2_spec n Hn) as [Hn1 Hn2].
  pose proof (Z.log2_spec d Hd) as [Hd1 Hd2].
  pose proof (Z.log2_nonneg n) as Hln. pose proof (Z.log2_nonneg d) as Hld.
  set (ln := Z.log2 n) in *. set (ld := Z.log2 d) in *.
  replace (Z.succ ln) with (ln + 1) in * by lia.
  replace (Z.succ ld) with (ld + 1) in * by lia.
  rewrite pow2_succ in Hn2, Hd2 by lia.
  unfold in_binade.
  destruct (Z.leb_spec 0 (ln - ld)) as [Hk|Hk].
  - assert (2 ^ ln = 2 ^ ld * 2 ^ (ln - ld)) as Hpow.
    { rewrite <- Z.pow_add_r by lia. f_equal. lia. }
    pose proof (pow2_pos (ln - ld) Hk) as Hp. pose proof (pow2_pos ld Hld) as Hpd.
    rewrite (scaled_spec n d (ln - ld)). 
    destruct (Z.leb_spec 0 (ln - ld)); [|lia]. simpl.
    destruct (Z.ltb_spec n (d * 2 ^ (ln - ld))) as [Hlt|Hge].
    + rewrite scaled_spec. destruct (Z.leb_spec 0 (ln - ld - 1)) as [Hk1|Hk1]; simpl.
      * assert (2 ^ (ln - ld) = 2 * 2 ^ (ln - ld - 1)) as Hp2.
        { rewrite <- pow2_succ by lia. f_equal. lia. }
        pose proof (pow2_pos (ln - ld - 1) Hk1). nia.
      * assert (ln - ld = 0) as H0 by lia. rewrite H0 in *.
        replace (- (0 - 1)) with 1 by lia. simpl in *. lia.
    + rewrite scaled_spec. destruct (Z.leb_spec 0 (ln - ld)); [|lia]. simpl. nia.
  - assert (2 ^ ld = 2 ^ ln * 2 ^ (- (ln - ld))) as Hpow.
    { rewrite <- Z.pow_add_r by lia. f_equal. lia. }
    assert (0 <= - (ln - ld)) as Hk' by lia.
    pose proof (pow2_pos _ Hk') as Hp. pose proof (pow2_pos ln Hln) as Hpn.
    rewrite (scaled_spec n d (ln - ld)).
    destruct (Z.leb_spec 0 (ln - ld)); [lia|]. simpl.
    destruct (Z.ltb_spec (n * 2 ^ (- (ln - ld))) d) as [Hlt|Hge].
    + rewrite scaled_spec. destruct (Z.leb_spec 0 (ln - ld - 1)); [lia|]. simpl.
      replace (- (ln - ld - 1)) with (- (ln - ld) + 1) by lia.
      rewrite pow2_succ by lia. nia.
    + rewrite scaled_spec. destruct (Z.leb_spec 0 (ln - ld)); [lia|]. simpl. nia.
Qed.


(** The mantissa before rounding lies in [[2^52, 2^53)]. *)
Lemma scaled_mantissa n d k :
  0 < n -> 0 < d -> in_binade (scaled n d k) ->
  0 < snd (scaled n d (k - 52)) /\
  2 ^ 52 * snd (scaled n d (k - 52)) <= fst (scaled n d (k - 52))
    < 2 ^ 53 * snd (scaled n d (k - 52)).
Proof.
  intros Hn Hd. unfold in_binade. rewrite !scaled_spec.
  destruct (Z.leb_spec 0 k) as [Hk|Hk]; simpl; intros Hb.
  - pose proof (pow2_pos k Hk).
    destruct (Z.leb_spec 0 (k - 52)) as [He|He]; simpl.
    + pose proof (pow2_pos _ He).
      assert (2 ^ k = 2 ^ 52 * 2 ^ (k - 52)) as Hp.
      { rewrite <- Z.pow_add_r by lia. f_equal. lia. }
      change (2 ^ 53) with (2 * 2 ^ 52). nia.
    + assert (0 <= - (k - 52)) as He' by lia. pose proof (pow2_pos _ He').
      assert (2 ^ 52 = 2 ^ k * 2 ^ (- (k - 52))) as Hp.
      { rewrite <- Z.pow_add_r by lia. f_equal. lia. }
      change (2 ^ 53) with (2 * 2 ^ 52). rewrite Hp. nia.
  - assert (0 <= - k) as Hk' by lia. pose proof (pow2_pos _ Hk').
    destruct (Z.leb_spec 0 (k - 52)) as [He|He]; [lia|]. simpl.
    assert (2 ^ (- (k - 52)) = 2 ^ 52 * 2 ^ (- k)) as Hp.
    { rewrite <- Z.pow_add_r by lia. f_equal. lia. }
    change (2 ^ 53) with (2 * 2 ^ 52). rewrite Hp. nia.
Qed.


Lemma round_half_even_between a b lo hi :
  0 < b -> lo * b <= a <= hi * b -> lo <= round_half_even a b <= hi.
Proof.
  intros Hb [Hlo Hhi]. unfold round_half_even.
  pose proof (Z.div_mod a b ltac:(lia)) as Hdm.
  pose proof (Z.mod_pos_bound a b Hb) as Hr.
  assert (lo <= a / b) by (apply Z.div_le_lower_bound; lia).
  assert (a / b <= hi) by (apply Z.div_le_upper_bound; lia).
  assert (a / b = hi -> a mod b = 0) by nia.
  destruct (Z.ltb_spec (2 * (a mod b)) b); [lia|].
  destruct (Z.ltb_spec b (2 * (a mod b))); [lia|].
  destruct (Z.even (a / b)); lia.
Qed.

Lemma digits2_pos_log2 m : Z.pos (digits2_pos m) = Z.log2 (Z.pos m) + 1.
Proof.
  induction m as [m IH|m IH|]; simpl; [| |done].
  - rewrite Pos2Z.inj_succ, IH. destruct m; simpl; lia.
  - rewrite Pos2Z.inj_succ, IH. destruct m; simpl; lia.
Qed.

Lemma valid_normal m e :
  2 ^ 52 <= Z.pos m < 2 ^ 53 -> -1074 <= e <= 971 ->
  valid_binary (S754_finite false m e) = true.
Proof.
  intros Hm He. unfold valid_binary, bounded, canonical_mantissa, fexp, SpecFloat.emin.
  rewrite digits2_pos_log2.
  rewrite (Z.log2_unique (Z.pos m) 52) by (change (2 ^ Z.succ 52) with (2 ^ 53); lia).
  apply andb_true_intro. split; [apply Z.eqb_eq | apply Z.leb_le]; unfold prec, emax; lia.
Qed.

(** The double nearest to a fraction in the normal range: its mantissa and
    exponent. *)
Lemma nearest_double_normal n d :
  0 < n -> 0 < d -> -1022 <= binade n d <= 1022 ->
  exists m e,
    nearest_double n d = S754_finite false m e /\
    2 ^ 52 <= Z.pos m < 2 ^ 53 /\
    binade n d - 52 <= e <= binade n d - 51 /\
    Z.pos m * 2 ^ (e - (binade n d - 52)) =
      round_half_even (fst (scaled n d (binade n d - 52)))
                      (snd (scaled n d (binade n d - 52))).
Proof.
  intros Hn Hd Hk. unfold nearest_double.
  destruct (Z.leb_spec n 0); [lia|].
  rewrite Z.max_l by lia.
  pose proof (scaled_mantissa n d _ Hn Hd (binade_spec n d Hn Hd)) as (Hb & Hlo & Hhi).
  destruct (scaled n d (binade n d - 52)) as [a b]. simpl in *.
  pose proof (round_half_even_between a b (2 ^ 52) (2 ^ 53) Hb ltac:(lia)) as Hm.
  set (m := round_half_even a b) in *.
  destruct (Z.eqb_spec m (2 ^ 53)) as [Heq|Hne].
  - change (2 ^ 52 =? 0) with false. simpl.
    destruct (Z.ltb_spec 971 (binade n d - 52 + 1)); [lia|].
    exists (Z.to_pos (2 ^ 52)), (binade n d - 52 + 1).
    split; [done|]. split; [by vm_compute|]. split; [lia|].
    replace (binade n d - 52 + 1 - (binade n d - 52)) with 1 by lia.
    rewrite Heq. by vm_compute.
  - destruct (Z.eqb_spec m 0); [lia|].
    destruct (Z.ltb_spec 971 (binade n d - 52)); [lia|].
    exists (Z.to_pos m), (binade n d - 52).
    rewrite Z2Pos.id by lia.
    split; [done|]. split; [lia|]. split; [lia|].
    rewrite Z.sub_diag. simpl. lia.
Qed.

Lemma ceil_truediv_normal n d :
  0 < n -> 0 < d -> -1022 <= binade n d <= 1022 ->
  exists m e,
    nearest_double n d = S754_finite false m e /\
    Py.ceil (truediv n d) =
      Some (if 0 <=? e then Z.pos m * 2 ^ e else - ((- Z.pos m) / 2 ^ (- e))).
Proof.
  intros Hn Hd Hk.
  destruct (nearest_double_normal n d Hn Hd Hk) as (m & e & Hnd & Hm & He & _).
  exists m, e. split; [done|].
  unfold Py.ceil, truediv, double_of_fraction. rewrite Hnd. simpl with_sign.
  rewrite Prim2SF_SF2Prim by (apply valid_normal; lia).
  destruct (0 <=? e); [|done]. f_equal. lia.
Qed.





End Floats.

(** ** The validator *)

Section Validator.

Implicit Types (data : gmap string pyval) (c : Cleaned) (v : pyval).

(** The validator as a chain of tests on the fields it read. *)
Lemma validate_book_payload_eq data :
  validate_book_payload data =
  if Py.is_empty (title_read data) then (Some (message TitlePresent), None)
  else if Py.is_empty (author_read data) then (Some (message AuthorPresent), None)
  else match year_read data with
  | None => (Some (message YearNumeric), None)
  | Some y =>
    if (y <? 0) || (2100 <? y) then (Some (message YearInRange), None)
    else match rating_read data with
    | None => (Some (message RatingNumeric), None)
    | Some r =>
      if PrimFloat.ltb r 0 || PrimFloat.ltb 5 r then (Some (message RatingInRange), None)
      else match price_read data with
      | None => (Some (message PriceNumeric), None)
      | Some p =>
        if PrimFloat.ltb p 0 then (Some (message PriceInRange), None)
        else (None, Some (cleaned_of data y r p))
      end
    end
  end.
Proof. reflexivity. Qed.

Lemma message_nonempty (r : Rule) : Py.is_empty (message r) = false.
Proof. by destruct r. Qed.


(** The result is an error or a cleaned record built from the fields. *)
Lemma validate_cases data :
  (∃ r, validate_book_payload data = (Some (message r), None)) ∨
  (∃ y r p, year_read data = Some y ∧ rating_read data = Some r ∧
            price_read data = Some p ∧
            validate_book_payload data = (None, Some (cleaned_of data y r p))).
Proof.
  rewrite validate_book_payload_eq.
  destruct (Py.is_empty (title_read data)); [left; by eexists|].
  destruct (Py.is_empty (author_read data)); [left; by eexists|].
  destruct (year_read data) as [y|]; [|left; by eexists].
  destruct ((y <? 0) || (2100 <? y)); [left; by eexists|].
  destruct (rating_read data) as [r|]; [|left; by eexists].
  destruct (PrimFloat.ltb r 0 || PrimFloat.ltb 5 r); [left; by eexists|].
  destruct (price_read data) as [p|]; [|left; by eexists].
  destruct (PrimFloat.ltb p 0); [left; by eexists|].
  right. by exists y, r, p.
Qed.


(** The boundaries of the three ranges. *)
Example validation_boundaries :
  fst (validate_book_payload (<["year" := PInt 2100]> dune)) = None ∧
  fst (validate_book_payload (<["year" := PInt 2101]> dune))
    = Some "Year must be between 0 and 2100." ∧
  fst (validate_book_payload (<["rating" := PFloat 5]> dune)) = None ∧
  fst (validate_book_payload (<["rating" := PStr "5.01"]> dune))
    = Some "Rating must be 0–5." ∧
  fst (validate_book_payload (<["price" := PInt 0]> dune)) = None ∧
  fst (validate_book_payload (<["price" := PStr "-0.01"]> dune))
    = Some "Price must be >= 0.".
Proof. by vm_compute. Qed.

(** Neither comparison of a range rule holds of a NaN, so a rating or a
    price that is a NaN passes its range rule. *)
Remark nan_passes_the_range_rules :
  fails (<["rating" := PStr "nan"]> dune) RatingInRange = false ∧
  validate_book_payload (<["rating" := PStr "nan"]> dune) =
    (None, Some {| c_title := "Dune"; c_author := "Frank Herbert"; c_year := 1965;
                   c_category := "Other"; c_rating := nan; c_price := 0;
                   c_image_url := PLACEHOLDER_IMG |}).
Proof. by vm_compute. Qed.

(** *** What the validator depends on *)

Lemma get_insert_eq data key v d : get (<[key := v]> data) key d = v.
Proof. unfold get. by rewrite lookup_insert_eq. Qed.

Lemma get_insert_ne data key k v d :
  key ≠ k → get (<[key := v]> data) k d = get data k d.
Proof. intros. unfold get. by rewrite lookup_insert_ne. Qed.


Lemma get_present data key v d : data !! key = Some v → get data key d = v.
Proof. intros H. unfold get. by rewrite H. Qed.

(** The validator sees a payload through the seven fields it reads. *)
Lemma validate_reads data data' :
  title_read data = title_read data' →
  author_read data = author_read data' →
  year_read data = year_read data' →
  category_read data = category_read data' →
  rating_read data = rating_read data' →
  price_read data = price_read data' →
  image_url_read data = image_url_read data' →
  validate_book_payload data = validate_book_payload data'.
Proof.
  intros Ht Ha Hy Hc Hr Hp Hi. rewrite !validate_book_payload_eq.
  unfold cleaned_of. by rewrite Ht, Ha, Hy, Hc, Hr, Hp, Hi.
Qed.



(** *** Omitted rating and price *)




(** *** Category and image *)


Lemma Other_is_an_option : "Other" ∈ CATEGORY_OPTIONS.
Proof. apply (bool_decide_unpack _). by vm_compute. Qed.

Lemma empty_is_no_option : "" ∉ CATEGORY_OPTIONS.
Proof. apply (bool_decide_unpack _). by vm_compute. Qed.

Lemma is_empty_true s : Py.is_empty s = true ↔ s = "".
Proof. by destruct s. Qed.

Lemma is_empty_false s : Py.is_empty s = false ↔ s ≠ "".
Proof. by destruct s. Qed.

(** The category of a cleaned record, from the category read. *)
Lemma cleaned_category data y r p :
  c_category (cleaned_of data y r p) =
  if bool_decide (category_read data ∈ CATEGORY_OPTIONS)
  then category_read data else "Other".
Proof.
  unfold cleaned_of, or_other; simpl.
  destruct (Py.is_empty (category_read data)) eqn:He.
  - apply is_empty_true in He. rewrite He.
    rewrite (bool_decide_eq_true_2 _ Other_is_an_option).
    by rewrite (bool_decide_eq_false_2 _ empty_is_no_option).
  - done.
Qed.



(** *** Titles and authors that are not strings *)

Lemma title_required_iff data :
  validate_book_payload data = (Some "Title is required.", None) ↔
  title_read data = "".
Proof.
  rewrite validate_book_payload_eq, <- is_empty_true.
  destruct (Py.is_empty (title_read data)); [done|].
  split; [|done]. intros H.
  destruct (Py.is_empty (author_read data)); [done|].
  destruct (year_read data) as [y|]; [|done].
  destruct ((y <? 0) || (2100 <? y)); [done|].
  destruct (rating_read data) as [r|]; [|done].
  destruct (PrimFloat.ltb r 0 || PrimFloat.ltb 5 r); [done|].
  destruct (price_read data) as [p|]; [|done].
  by destruct (PrimFloat.ltb p 0).
Qed.

Lemma author_required_iff data :
  validate_book_payload data = (Some "Author is required.", None) ↔
  title_read data ≠ "" ∧ author_read data = "".
Proof.
  rewrite validate_book_payload_eq.
  destruct (Py.is_empty (title_read data)) eqn:Ht.
  { apply is_empty_true in Ht. split; [done | by intros [? _]]. }
  apply is_empty_false in Ht.
  destruct (Py.is_empty (author_read data)) eqn:Ha.
  { by apply is_empty_true in Ha. }
  apply is_empty_false in Ha.
  split; [|by intros [_ ?]]. intros H.
  destruct (year_read data) as [y|]; [|done].
  destruct ((y <? 0) || (2100 <? y)); [done|].
  destruct (rating_read data) as [r|]; [|done].
  destruct (PrimFloat.ltb r 0 || PrimFloat.ltb 5 r); [done|].
  destruct (price_read data) as [p|]; [|done].
  by destruct (PrimFloat.ltb p 0).
Qed.

Lemma cleaned_title_author data c :
  validate_book_payload data = (None, Some c) →
  c_title c = title_read data ∧ c_author c = author_read data.
Proof.
  intros Hv.
  destruct (validate_cases data) as [[r Hr]|(y & r & p & _ & _ & _ & Hc)];
    [by rewrite Hr in Hv|].
  rewrite Hc in Hv. by injection Hv as <-.
Qed.

(** C10. The emptiness checks of the title and of the author are made on
    [str(value).strip()]: the title is reported as required exactly when
    that text is empty, and the author likewise once the title is there.
    So a title or an author bound to a value that is not a string is
    never reported as missing, and the cleaned record holds the text of
    the value; bound to null, it is stored as the text ["None"]. *)
Theorem non_string_title_is_stringified data key v :
  key = "title" ∨ key = "author" →
  data !! key = Some v →
  (validate_book_payload data = (Some "Title is required.", None) ↔
   title_read data = "") ∧
  (validate_book_payload data = (Some "Author is required.", None) ↔
   title_read data ≠ "" ∧ author_read data = "") ∧
  (if bool_decide (key = "title") then title_read data else author_read data)
    = Py.strip (Py.str v) ∧
  ((∀ s, v ≠ PStr s) →
   validate_book_payload data ≠
     (Some (if bool_decide (key = "title")
            then "Title is required." else "Author is required."), None) ∧
   ∀ c, validate_book_payload data = (None, Some c) →
        (if bool_decide (key = "title") then c_title c else c_author c)
          = Py.strip (Py.str v)) ∧
  Py.strip (Py.str PNone) = "None".
Proof.
  intros Hkey Hv.
  split; [apply title_required_iff|]. split; [apply author_required_iff|].
  assert ((if bool_decide (key = "title") then title_read data else author_read data)
          = Py.strip (Py.str v)) as Hread.
  { destruct Hkey as [-> | ->]; simpl;
      unfold title_read, author_read; by rewrite (get_present _ _ _ _ Hv). }
  split; [done|]. split; [|by vm_compute].
  intros Hns. pose proof (strip_str_nonempty v Hns) as Hne.
  apply is_empty_false in Hne.
  destruct Hkey as [-> | ->]; simpl in *.
  - split.
    + rewrite title_required_iff. congruence.
    + intros c Hc. destruct (cleaned_title_author _ _ Hc). congruence.
  - split.
    + rewrite author_required_iff. intros [_ ?]. congruence.
    + intros c Hc. destruct (cleaned_title_author _ _ Hc). congruence.
Qed.

(** The payload [dune] with a null title. *)
Lemma non_string_title_is_stringified_witness :
  <["title" := PNone]> dune !! "title" = Some PNone ∧
  validate_book_payload (<["title" := PNone]> dune) =
    (None, Some (cleaned_of (<["title" := PNone]> dune) 1965 0 0)) ∧
  c_title (cleaned_of (<["title" := PNone]> dune) 1965 0 0) = "None".
Proof.
  assert (<["title" := PNone]> dune !! "title" = Some PNone) as Hl by (by vm_compute).
  assert (validate_book_payload (<["title" := PNone]> dune) =
    (None, Some (cleaned_of (<["title" := PNone]> dune) 1965 0 0))) as Hc
    by (by vm_compute).
  split; [exact Hl|]. split; [exact Hc|].
  destruct (non_string_title_is_stringified _ "title" PNone (or_introl eq_refl) Hl)
    as (_ & _ & _ & Hns & Hnone).
  destruct (Hns ltac:(done)) as [_ Hstored].
  rewrite <- Hnone. exact (Hstored _ Hc).
Defined.

End Validator.
(** ** Create, update, delete *)

Section Crud.

Implicit Types (db : Database) (b : Book) (c : Cleaned) (body : option pyval).

Lemma first_by_id_none book_id (l : list Book) :
  Forall (λ b, id b ≠ book_id) l → first_by_id book_id l = None.
Proof.
  induction 1 as [|b l Hb _ IH]; [done|].
  unfold first_by_id in *. simpl. by rewrite (proj2 (Z.eqb_neq _ _) Hb).
Qed.

Lemma first_by_id_some book_id (l : list Book) b :
  first_by_id book_id l = Some b → b ∈ l ∧ id b = book_id.
Proof.
  intros [Hin Heq]%find_some. split; [by apply list_elem_of_In | by apply Z.eqb_eq].
Qed.

(** The update handler, once the payload is a dictionary that passes
    validation. *)
Lemma update_book_valid book_id body data c db :
  json_or_empty body = Some data →
  validate_book_payload data = (None, Some c) →
  update_book book_id body db =
    match first_by_id book_id (rows db) with
    | None => (not_found, db)
    | Some b =>
        (Json (BookBody (book_to_dict (overwritten c b))) 200,
         {| rows := (λ r, if id r =? book_id then overwritten c r else r) <$> rows db;
            next_id := next_id db |})
    end.
Proof. intros Hj Hv. unfold update_book. by rewrite Hj, Hv. Qed.

(** The update handler on a payload that fails validation. *)
Lemma update_book_invalid book_id body data r db :
  json_or_empty body = Some data →
  validate_book_payload data = (Some (message r), None) →
  update_book book_id body db = (Json (ErrorBody (message r)) 400, db).
Proof.
  intros Hj Hv. unfold update_book. rewrite Hj, Hv. unfold is_error.
  by rewrite message_nonempty.
Qed.

(** An update answers 200 or leaves the table as it was. *)
Lemma update_book_all_or_nothing book_id body db :
  status_of (fst (update_book book_id body db)) = 200 ∨
  snd (update_book book_id body db) = db.
Proof.
  destruct (json_or_empty body) as [data|] eqn:Hj;
    [|right; unfold update_book; by rewrite Hj].
  destruct (validate_cases data) as [[r Hr]|(y & r & p & _ & _ & _ & Hc)].
  - right. by rewrite (update_book_invalid _ _ _ _ _ Hj Hr).
  - rewrite (update_book_valid _ _ _ _ _ Hj Hc).
    destruct (first_by_id book_id (rows db)); [by left | by right].
Qed.

Lemma create_book_all_or_nothing now body db :
  status_of (fst (create_book now body db)) = 201 ∨
  snd (create_book now body db) = db.
Proof.
  unfold create_book.
  destruct (json_or_empty body) as [data|]; [|by right].
  destruct (validate_cases data) as [[r ->]|(y & r & p & _ & _ & _ & ->)].
  - right. unfold is_error. by rewrite message_nonempty.
  - by left.
Qed.

Lemma delete_book_all_or_nothing book_id db :
  status_of (fst (delete_book book_id db)) = 200 ∨
  snd (delete_book book_id db) = db.
Proof.
  unfold delete_book. destruct (first_by_id book_id (rows db)); [by left | by right].
Qed.



(** C7, at a request. No record has the id 7 in the empty table, and the
    update of id 7 with a payload without an author answers 400 with the
    validator's message, not 404. *)
Lemma update_of_missing_id_answers_400 :
  Forall (λ b, id b ≠ 7) (rows empty_db) ∧
  update_book 7 (Some no_author) empty_db =
    (Json (ErrorBody "Author is required.") 400, empty_db).
Proof. split; [by constructor | by vm_compute]. Qed.

(** C7, amended. When no stored record has the id, a delete answers 404,
    and so does an update whose payload passes validation; an update
    whose payload fails validation answers 400 with the validator's
    message, as the payload is validated before the record is looked up.
    The table is left as it was in each case; in general, an update or a
    delete that does not answer 200, and a create that does not answer
    201, leave the table as it was. *)
Theorem missing_id_is_not_found book_id body db :
  Forall (λ b, id b ≠ book_id) (rows db) →
  delete_book book_id db = (not_found, db) ∧
  snd (update_book book_id body db) = db ∧
  (∀ data c, json_or_empty body = Some data →
             validate_book_payload data = (None, Some c) →
             update_book book_id body db = (not_found, db)) ∧
  (∀ data r, json_or_empty body = Some data →
             validate_book_payload data = (Some (message r), None) →
             update_book book_id body db = (Json (ErrorBody (message r)) 400, db)) ∧
  (∀ book_id' body' db',
     (status_of (fst (update_book book_id' body' db')) ≠ 200 →
      snd (update_book book_id' body' db') = db') ∧
     (status_of (fst (delete_book book_id' db')) ≠ 200 →
      snd (delete_book book_id' db') = db') ∧
     (∀ now, status_of (fst (create_book now body' db')) ≠ 201 →
             snd (create_book now body' db') = db')).
Proof.
  intros Hnone%first_by_id_none.
  assert (∀ data c, json_or_empty body = Some data →
             validate_book_payload data = (None, Some c) →
             update_book book_id body db = (not_found, db)) as Hvalid.
  { intros data c Hj Hv. by rewrite (update_book_valid _ _ _ _ _ Hj Hv), Hnone. }
  split; [unfold delete_book; by rewrite Hnone|].
  split; [|split; [done|split]].
  - destruct (json_or_empty body) as [data|] eqn:Hj;
      [|unfold update_book; by rewrite Hj].
    destruct (validate_cases data) as [[r Hr]|(y & r & p & _ & _ & _ & Hc)].
    + by rewrite (update_book_invalid _ _ _ _ _ Hj Hr).
    + by rewrite (Hvalid _ _ eq_refl Hc).
  - intros data r Hj Hr. by apply update_book_invalid with data.
  - intros book_id' body' db'. split; [|split]; [intros Hst ..|intros now Hst].
    + by destruct (update_book_all_or_nothing book_id' body' db').
    + by destruct (delete_book_all_or_nothing book_id' db').
    + by destruct (create_book_all_or_nothing now body' db').
Qed.

(** The id 7 in the table [one_book], whose one row has the id 1. *)
Lemma missing_id_is_not_found_witness :
  Forall (λ b, id b ≠ 7) (rows one_book) ∧
  delete_book 7 one_book = (not_found, one_book) ∧
  update_book 7 (Some (PDict dune_fields)) one_book = (not_found, one_book).
Proof.
  assert (Forall (λ b, id b ≠ 7) (rows one_book)) as H
    by (by repeat constructor).
  destruct (missing_id_is_not_found 7 (Some (PDict dune_fields)) one_book H)
    as (Hdel & _ & Hup & _).
  split; [exact H|]. split; [exact Hdel|].
  apply (Hup dune (cleaned_of dune 1965 0 0)); by vm_compute.
Defined.

End Crud.

(** ** The listing *)

Section Listing.

Implicit Types (args : gmap string string) (db : Database).

Lemma insert_sorted_length le x l :
  length (insert_sorted le x l) = S (length l).
Proof.
  induction l as [|y l IH]; [done|]. simpl.
  destruct (le x y); simpl; by rewrite ?IH.
Qed.

Lemma sort_length le l : length (foldr (insert_sorted le) [] l) = length l.
Proof.
  induction l as [|x l IH]; [done|]. simpl.
  by rewrite insert_sorted_length, IH.
Qed.

Lemma insert_sorted_perm le x l : insert_sorted le x l ≡ₚ x :: l.
Proof.
  induction l as [|y l IH]; [done|]. simpl.
  destruct (le x y); [done|]. rewrite IH. apply Permutation_swap.
Qed.

(** The ordering keeps the records: it is a permutation of them. *)
Lemma order_by_perm sort_by sort_dir l : order_by sort_by sort_dir l ≡ₚ l.
Proof.
  unfold order_by.
  destruct (String.eqb sort_dir "asc");
    induction l as [|x l IH]; simpl; try done;
    by rewrite insert_sorted_perm, IH.
Qed.


Lemma safe_int_default v n : _safe_int v (Some n) = Some (default n (Py.int v)).
Proof. unfold _safe_int. by destruct (Py.int v). Qed.




Lemma filter_all (P : Book → Prop) `{!∀ b, Decision (P b)} (l : list Book) :
  (∀ b, P b) → filter P l = l.
Proof.
  intros HP. induction l as [|b l IH]; [done|].
  by rewrite filter_cons_True, IH.
Qed.

(** The filters of the handler select the matching records. *)
Lemma filters_matching q cat (l : list Book) :
  (let query :=
     if negb (Py.is_empty q) then
       filter (λ b, ilike (title b) ("%" ++ q ++ "%")
                    || ilike (author b) ("%" ++ q ++ "%") = true) l
     else l in
   if negb (Py.is_empty cat)
   then filter (λ b, String.eqb (category b) cat = true) query
   else query)
  = filter (matches q cat) l.
Proof.
  simpl. unfold matches.
  destruct (Py.is_empty q) eqn:Hq, (Py.is_empty cat) eqn:Hc; simpl;
    [apply is_empty_true in Hq, Hc | apply is_empty_true in Hq; apply is_empty_false in Hc
    |apply is_empty_false in Hq; apply is_empty_true in Hc
    |apply is_empty_false in Hq, Hc];
    rewrite ?list_filter_filter.
  - symmetry. apply filter_all. intros b. tauto.
  - apply list_filter_iff. intros b. rewrite String.eqb_eq. tauto.
  - apply list_filter_iff. intros b. rewrite orb_true_iff. tauto.
  - apply list_filter_iff. intros b. rewrite String.eqb_eq, orb_true_iff. tauto.
Qed.

(** The handler, in terms of the resolved parameters. *)
Lemma get_books_eq args db :
  get_books args db =
  match page_count (Z.of_nat (length (matching args db))) (resolved_page_size args) with
  | Some total_pages =>
      Json (ListingBody {|
        l_items := book_to_dict <$> page_of args db (resolved_page args);
        l_total := Z.of_nat (length (matching args db));
        l_page :=
          if (total_pages <? resolved_page args)
             && (0 <? Z.of_nat (length (matching args db)))
          then total_pages else resolved_page args;
        l_pageSize := resolved_page_size args;
        l_totalPages := total_pages;
      |}) 200
  | None => Unhandled
  end.
Proof.
  unfold get_books. rewrite !safe_int_default.
  pose proof (filters_matching (q_arg args) (category_arg args) (rows db)) as Hf.
  simpl in Hf. unfold q_arg, category_arg in Hf. rewrite Hf. clear Hf.
  fold (q_arg args) (category_arg args) (matching args db).
  fold (page_arg args) (page_size_arg args).
  assert ((if default 1 (page_arg args) <? 1 then 1 else default 1 (page_arg args))
          = resolved_page args) as ->.
  { unfold resolved_page. destruct (Z.ltb_spec (default 1 (page_arg args)) 1); lia. }
  fold (resolved_page_size args).
  assert ((if bool_decide (Py.strip (Py.str (arg args "sortBy" (PStr "created_at")))
                           ∈ ALLOWED_SORT_FIELDS)
           then Py.strip (Py.str (arg args "sortBy" (PStr "created_at")))
           else "created_at") = resolved_sort_by args) as -> by done.
  assert ((if String.eqb (Py.lower (Py.strip (Py.str (arg args "sortDir" (PStr "desc"))))) "asc"
              || String.eqb (Py.lower (Py.strip (Py.str (arg args "sortDir" (PStr "desc"))))) "desc"
           then Py.lower (Py.strip (Py.str (arg args "sortDir" (PStr "desc"))))
           else "desc") = resolved_sort_dir args) as ->.
  { unfold resolved_sort_dir. fold (sort_dir_arg args).
    destruct (String.eqb_spec (sort_dir_arg args) "asc") as [->|H1]; [done|].
    destruct (String.eqb_spec (sort_dir_arg args) "desc") as [->|H2]; [done|].
    rewrite bool_decide_eq_false_2; [done|].
    rewrite !elem_of_cons, elem_of_nil. tauto. }
  done.
Qed.



Lemma arg_insert_ne args key k v d :
  key ≠ k → arg (<[key := v]> args) k d = arg args k d.
Proof. intros. unfold arg. by rewrite lookup_insert_ne. Qed.

Lemma arg_insert_eq args key v d : arg (<[key := v]> args) key d = PStr v.
Proof. unfold arg. by rewrite lookup_insert_eq. Qed.








(** *** A page beyond the last one *)





End Listing.
(** ** Statistics *)

Section Statistics.

Implicit Types (args : gmap string string) (db : Database).








End Statistics.
(** ** More on the builtins *)

Ltac by_cases_on c :=
  destruct c as [[] [] [] [] [] [] [] []]; try discriminate; try reflexivity.

Section MoreBuiltins.

Import Py.

(** *** Comparing floats *)

Lemma SFcompare_antisym x y :
  SFcompare y x = option_map CompOpp (SFcompare x y).
Proof.
  destruct x as [s1|s1| |s1 m1 e1], y as [s2|s2| |s2 m2 e2]; simpl; try done;
    try (by destruct s1); try (by destruct s2); try (by destruct s1, s2).
  rewrite (Z.compare_antisym e1 e2).
  pose proof (Pos.compare_cont_antisym m1 m2 Eq) as Hm. simpl in Hm.
  destruct s1, s2; simpl; try done; destruct (e1 ?= e2); simpl; try done;
    by rewrite <- Hm; destruct (Pos.compare_cont Eq m1 m2).
Qed.

Lemma SFcompare_refl x : x ≠ S754_nan → SFcompare x x = Some Eq.
Proof.
  destruct x as [s|s| |s m e]; simpl; try done; try (by destruct s).
  intros _. rewrite Z.compare_refl. destruct s; by rewrite Pos.compare_cont_refl.
Qed.

Lemma SFcompare_some x y :
  x ≠ S754_nan → y ≠ S754_nan → is_Some (SFcompare x y).
Proof. destruct x, y; simpl; try done; by eexists. Qed.

Lemma is_nan_spec (x : PrimFloat.float) :
  PrimFloat.is_nan x = true ↔ Prim2SF x = S754_nan.
Proof.
  unfold PrimFloat.is_nan. rewrite FloatAxioms.eqb_spec. unfold SFeqb.
  destruct (Prim2SF x) as [s|s| |s m e] eqn:Hx; [| |done|];
    (rewrite SFcompare_refl by done; simpl; split; [done | by intros ?]).
Qed.

Lemma is_nan_false (x : PrimFloat.float) :
  PrimFloat.is_nan x = false ↔ Prim2SF x ≠ S754_nan.
Proof. rewrite <- is_nan_spec. by destruct (PrimFloat.is_nan x). Qed.

(** Of two floats that are no NaN, one is below or equal to the other. *)
Lemma float_not_ltb_leb (x y : PrimFloat.float) :
  PrimFloat.is_nan x = false → PrimFloat.is_nan y = false →
  PrimFloat.ltb x y = false → PrimFloat.leb y x = true.
Proof.
  rewrite !is_nan_false, ltb_spec, leb_spec. intros Hx Hy.
  unfold SFltb, SFleb. rewrite (SFcompare_antisym (Prim2SF x) (Prim2SF y)).
  destruct (SFcompare_some _ _ Hx Hy) as [c ->]. by destruct c.
Qed.


(** *** Trimming *)

Lemma rstrip_idem p s : rstrip p (rstrip p s) = rstrip p s.
Proof.
  induction s as [|c s IH]; [done|]. simpl.
  destruct (is_empty (rstrip p s) && p c) eqn:He; [done|].
  simpl. by rewrite IH, He.
Qed.

Lemma rstrip_keeps_head p c s :
  p c = false → rstrip p (String c s) = String c (rstrip p s).
Proof. intros Hc. simpl. by rewrite Hc, andb_false_r. Qed.

Lemma lstrip_head_visible p s :
  match lstrip p s with
  | EmptyString => True
  | String c _ => p c = false
  end.
Proof.
  induction s as [|c s IH]; [done|]. simpl.
  by destruct (p c) eqn:Hc; [|simpl].
Qed.

(** [strip] leaves a trimmed text as it is. *)
Lemma strip_idem s : strip (strip s) = strip s.
Proof.
  unfold strip. pose proof (lstrip_head_visible isspace s) as Hh.
  destruct (lstrip isspace s) as [|c t]; [done|].
  rewrite (rstrip_keeps_head _ _ _ Hh). simpl lstrip. rewrite Hh.
  rewrite <- (rstrip_keeps_head _ _ _ Hh). apply rstrip_idem.
Qed.

Lemma lstrip_none p s :
  string_forallb (λ c, negb (p c)) s = true → lstrip p s = s.
Proof. destruct s as [|c s]; [done|]. simpl. by destruct (p c). Qed.

Lemma rstrip_none p s :
  string_forallb (λ c, negb (p c)) s = true → rstrip p s = s.
Proof.
  induction s as [|c s IH]; [done|]. simpl.
  intros [Hc Hs]%andb_true_iff. rewrite (IH Hs).
  apply negb_true_iff in Hc. by rewrite Hc, andb_false_r.
Qed.

Lemma string_forallb_impl (p q : ascii → bool) s :
  (∀ c, p c = true → q c = true) →
  string_forallb p s = true → string_forallb q s = true.
Proof.
  intros Hpq. induction s as [|c s IH]; [done|]. simpl.
  intros [Hc Hs]%andb_true_iff. by rewrite (Hpq _ Hc), IH.
Qed.

Lemma string_forallb_app p s t :
  string_forallb p (s ++ t) = string_forallb p s && string_forallb p t.
Proof.
  induction s as [|c s IH]; [done|]. simpl. by rewrite IH, andb_assoc.
Qed.

(** *** Decimal numerals, written and read back *)

Lemma digit_not_blank c : isdigit c = true → isblank c = false.
Proof. by_cases_on c. Qed.

Lemma digit_not_underscore c : isdigit c = true → Ascii.eqb c "_" = false.
Proof. by_cases_on c. Qed.

Lemma split_sign_digit c s :
  isdigit c = true → split_sign (String c s) = (false, String c s).
Proof. by_cases_on c. Qed.

Lemma drop_underscores_end c :
  isdigit c = true → drop_underscores (Some c) "" = Some "".
Proof. by_cases_on c. Qed.

Lemma drop_underscores_digit prev c s :
  isdigit c = true →
  drop_underscores prev (String c s) = String c <$> drop_underscores (Some c) s.
Proof.
  intros Hc. simpl. rewrite (digit_not_underscore _ Hc), Hc.
  destruct prev as [p|]; [|done]. by_cases_on p.
Qed.

Lemma drop_underscores_digits prev s :
  string_forallb isdigit s = true →
  (s = "" → match prev with Some c => isdigit c = true | None => True end) →
  drop_underscores prev s = Some s.
Proof.
  revert prev. induction s as [|c s IH]; intros prev Hs Hprev.
  - destruct prev as [c|]; [|done]. by apply drop_underscores_end, Hprev.
  - apply andb_true_iff in Hs as [Hc Hs].
    rewrite (drop_underscores_digit _ _ _ Hc), IH; by try done.
Qed.

Lemma string_of_uint_digits d :
  string_forallb isdigit (NilEmpty.string_of_uint d) = true.
Proof. induction d; simpl; by rewrite ?IHd. Qed.

Lemma digits_value_uint_acc d acc :
  digits_value (Z.pos acc) (NilEmpty.string_of_uint d) = Z.pos (Pos.of_uint_acc d acc).
Proof.
  revert acc. induction d; intros acc; simpl; [done|..];
    rewrite <- IHd; f_equal; unfold digit_value, code; simpl N_of_ascii; lia.
Qed.

Lemma digits_value_uint d :
  digits_value 0 (NilEmpty.string_of_uint d) = Z.of_N (Pos.of_uint d).
Proof.
  induction d; simpl; [done|done|..];
    change (10 * 0 + digit_value _) with (Z.pos 1 + 0) ||
    idtac; try apply digits_value_uint_acc.
Qed.

Lemma string_of_pos_digits p :
  ∃ c s, NilZero.string_of_uint (Pos.to_uint p) = String c s ∧
         isdigit c = true ∧ string_forallb isdigit s = true ∧
         digits_value 0 (String c s) = Z.pos p.
Proof.
  pose proof (Unsigned.to_uint_nonnil p) as Hnil.
  pose proof (string_of_uint_digits (Pos.to_uint p)) as Hd.
  pose proof (digits_value_uint (Pos.to_uint p)) as Hv.
  rewrite Unsigned.of_to in Hv.
  assert (NilZero.string_of_uint (Pos.to_uint p)
          = NilEmpty.string_of_uint (Pos.to_uint p)) as ->.
  { by destruct (Pos.to_uint p). }
  destruct (NilEmpty.string_of_uint (Pos.to_uint p)) as [|c s] eqn:Hs.
  { by destruct (Pos.to_uint p). }
  apply andb_true_iff in Hd as [Hc Hd]. by exists c, s.
Qed.

Lemma int_of_digits neg c s :
  isdigit c = true → string_forallb isdigit s = true →
  int_of_str ((if neg : bool then "-" else "") ++ String c s) =
  Some (if neg then - digits_value 0 (String c s) else digits_value 0 (String c s)).
Proof.
  intros Hc Hs.
  assert (string_forallb isdigit (String c s) = true) as Hcs
    by (simpl; by rewrite Hc, Hs).
  assert (string_forallb (λ c, negb (isblank c))
            ((if neg then "-" else "") ++ String c s) = true) as Hnb.
  { rewrite string_forallb_app. apply andb_true_iff. split; [by destruct neg|].
    apply (string_forallb_impl isdigit); [|done].
    intros c' Hc'. by rewrite (digit_not_blank _ Hc'). }
  unfold int_of_str. rewrite (lstrip_none _ _ Hnb), (rstrip_none _ _ Hnb).
  assert (split_sign ((if neg then "-" else "") ++ String c s) = (neg, String c s))
    as ->.
  { destruct neg; [done|]. apply (split_sign_digit _ _ Hc). }
  rewrite drop_underscores_digits by done. by rewrite Hcs.
Qed.

(** [int(str(n))] is [n]. *)
Lemma int_of_str_str_int n : int_of_str (str_int n) = Some n.
Proof.
  unfold str_int. destruct n as [|p|p]; [done|..]; simpl;
    destruct (string_of_pos_digits p) as (c & s & -> & Hc & Hs & Hv).
  - rewrite <- Hv. exact (int_of_digits false c s Hc Hs).
  - change (Z.neg p) with (- Z.pos p). rewrite <- Hv.
    exact (int_of_digits true c s Hc Hs).
Qed.

End MoreBuiltins.

(** ** The free text filter *)

Section Like.

Import Py.

Lemma like_percent_eq p text :
  like (String "%" p) text =
  like p text || match text with
                 | EmptyString => false
                 | String _ t => like (String "%" p) t
                 end.
Proof. by destruct text. Qed.

(** [%] stands for any run of characters. *)
Lemma like_percent p text :
  like (String "%" p) text = true ↔ ∃ pre t, text = pre ++ t ∧ like p t = true.
Proof.
  induction text as [|x text IH]; rewrite like_percent_eq, orb_true_iff.
  - split.
    + intros [H|H]; [|done]. by exists "", "".
    + intros (pre & t & Heq & H). left.
      destruct pre as [|y pre]; [|done]. change ("" = t) in Heq. by subst.
  - rewrite IH. split.
    + intros [H|(pre & t & -> & H)].
      * by exists "", (String x text).
      * by exists (String x pre), t.
    + intros (pre & t & Heq & H). destruct pre as [|y pre].
      * left. change (String x text = t) in Heq. by subst.
      * right. change (String x text = String y (pre ++ t)) in Heq.
        injection Heq as -> ->. by exists pre, t.
Qed.

Lemma like_plain_char c p text :
  plain_char c = true →
  like (String c p) text =
  match text with
  | EmptyString => false
  | String x t => Ascii.eqb x c && like p t
  end.
Proof.
  unfold plain_char. intros H%negb_true_iff.
  apply orb_false_iff in H as [H Hb]. apply orb_false_iff in H as [Hp Hu].
  simpl. by rewrite Hp, Hu, Hb.
Qed.

(** A plain text in a pattern stands for itself. *)
Lemma like_plain q p text :
  plain q = true →
  like (q ++ p) text = true ↔ ∃ t, text = q ++ t ∧ like p t = true.
Proof.
  revert text. induction q as [|c q IH]; intros text Hq.
  - simpl. split; [by exists text | by intros (t & -> & ?)].
  - simpl in Hq. apply andb_true_iff in Hq as [Hc Hq].
    change (String c q ++ p) with (String c (q ++ p)).
    rewrite (like_plain_char _ _ _ Hc). destruct text as [|x text].
    + split; [done | by intros (t & ? & _)].
    + rewrite andb_true_iff, (IH _ Hq), Ascii.eqb_eq. split.
      * intros [-> (t & -> & H)]. by exists t.
      * intros (t & Heq & H). change (String x text = String c (q ++ t)) in Heq.
        injection Heq as -> ->. split; [done|]. by exists t.
Qed.

Lemma like_percent_only text : like "%" text = true.
Proof.
  apply like_percent. exists text, "". split; [|done].
  induction text as [|x text IH]; [done|].
  change (String x text = String x (text ++ "")). by rewrite <- IH.
Qed.

Lemma like_escaped_percent text :
  like "%\%" text = true ↔ ∃ pre, text = pre ++ "%".
Proof.
  rewrite like_percent. split.
  - intros (pre & t & -> & H). exists pre.
    destruct t as [|x [|y t]]; simpl in H; try done.
    + rewrite andb_true_r in H. by apply Ascii.eqb_eq in H as ->.
    + by rewrite andb_false_r in H.
  - intros [pre ->]. by exists pre, "%".
Qed.

Lemma lower_app s t : lower (s ++ t) = lower s ++ lower t.
Proof.
  induction s as [|c s IH]; [done|].
  change (lower (String c (s ++ t)) = String (lower_char c) (lower s ++ lower t)).
  simpl. by rewrite IH.
Qed.

Lemma plain_lower_char c : plain_char c = true → plain_char (lower_char c) = true.
Proof. by_cases_on c. Qed.

Lemma plain_lower q : plain q = true → plain (lower q) = true.
Proof.
  unfold plain. induction q as [|c q IH]; [done|]. simpl.
  intros [Hc Hq]%andb_true_iff. by rewrite (plain_lower_char _ Hc), IH.
Qed.

(** X22. For a free text without the characters [%], [_] and backslash,
    the filter [column ILIKE '%q%'] is the search of [q] as a part of the
    column, whatever the case of the letters: it holds exactly when the
    lower-cased column is some text, the lower-cased [q], and some
    text. *)
Theorem free_text_finds_substrings q text :
  plain q = true →
  ilike text ("%" ++ q ++ "%") = true ↔
  ∃ pre post, lower text = pre ++ lower q ++ post.
Proof.
  intros Hq. unfold ilike.
  change (lower ("%" ++ q ++ "%")) with (String "%" (lower (q ++ "%"))).
  rewrite lower_app, like_percent. split.
  - intros (pre & t & -> & (post & -> & _)%(like_plain _ _ _ (plain_lower _ Hq))).
    by exists pre, post.
  - intros (pre & post & ->). exists pre, (lower q ++ post). split; [done|].
    apply (like_plain _ _ _ (plain_lower _ Hq)). exists post.
    split; [done | apply like_percent_only].
Qed.

(** The text "Dune" is found by the free text "UN". *)
Lemma free_text_finds_substrings_witness :
  plain "UN" = true ∧ ilike "Dune" ("%" ++ "UN" ++ "%") = true.
Proof.
  split; [by vm_compute|].
  apply (free_text_finds_substrings "UN" "Dune"); [by vm_compute|].
  by exists "d", "e".
Defined.

(** X23. The characters [%], [_] and backslash of the free text are not
    escaped: the free text [%] matches every column, the free text [_]
    every column that is not empty, and the free text of one backslash
    matches the columns that end with a percent sign. *)
Theorem wildcards_are_not_escaped text :
  ilike text ("%" ++ "%" ++ "%") = true ∧
  (text ≠ "" → ilike text ("%" ++ "_" ++ "%") = true) ∧
  (ilike text ("%" ++ "\" ++ "%") = true ↔ ∃ pre, lower text = pre ++ "%").
Proof.
  unfold ilike. split; [|split].
  - apply like_percent. exists "", (lower text). split; [done|].
    apply like_percent. exists (lower text), "". split; [|done].
    clear. induction (lower text) as [|x t IH]; [done|].
    change (String x t = String x (t ++ "")). by rewrite <- IH.
  - intros Hne. destruct text as [|x text]; [done|].
    apply like_percent. exists "", (lower (String x text)). split; [done|].
    simpl. apply like_percent_only.
  - apply like_escaped_percent.
Qed.

End Like.
(** ** More on the validator *)

Section ValidatorMore.

Implicit Types (data : gmap string pyval) (c : Cleaned) (v : pyval).

(** What a payload that passes validation has passed. *)
Lemma validate_accepts data c :
  validate_book_payload data = (None, Some c) →
  ∃ y r p,
    Py.is_empty (title_read data) = false ∧
    Py.is_empty (author_read data) = false ∧
    year_read data = Some y ∧ 0 ≤ y ≤ 2100 ∧
    rating_read data = Some r ∧
    PrimFloat.ltb r 0 = false ∧ PrimFloat.ltb 5 r = false ∧
    price_read data = Some p ∧ PrimFloat.ltb p 0 = false ∧
    c = cleaned_of data y r p.
Proof.
  rewrite validate_book_payload_eq.
  destruct (Py.is_empty (title_read data)); [done|].
  destruct (Py.is_empty (author_read data)); [done|].
  destruct (year_read data) as [y|]; [|done].
  destruct ((y <? 0) || (2100 <? y)) eqn:Hy; [done|].
  destruct (rating_read data) as [r|]; [|done].
  destruct (PrimFloat.ltb r 0 || PrimFloat.ltb 5 r) eqn:Hr; [done|].
  destruct (price_read data) as [p|]; [|done].
  destruct (PrimFloat.ltb p 0) eqn:Hp; [done|].
  intros [= <-]. exists y, r, p.
  apply orb_false_iff in Hy as [Hy1 Hy2]. apply orb_false_iff in Hr as [Hr1 Hr2].
  repeat split; try done; lia.
Qed.

(** The other way round: what passes the tests is accepted. *)
Lemma validate_accepted data y r p :
  Py.is_empty (title_read data) = false →
  Py.is_empty (author_read data) = false →
  year_read data = Some y → 0 ≤ y ≤ 2100 →
  rating_read data = Some r →
  PrimFloat.ltb r 0 = false → PrimFloat.ltb 5 r = false →
  price_read data = Some p → PrimFloat.ltb p 0 = false →
  validate_book_payload data = (None, Some (cleaned_of data y r p)).
Proof.
  intros Ht Ha Hy Hyr Hr Hr1 Hr2 Hp Hp1.
  rewrite validate_book_payload_eq, Ht, Ha, Hy, Hr, Hr1, Hr2, Hp, Hp1.
  destruct (Z.ltb_spec y 0); [lia|]. by destruct (Z.ltb_spec 2100 y); [lia|].
Qed.

Lemma placeholder_trimmed : Py.strip PLACEHOLDER_IMG = PLACEHOLDER_IMG.
Proof. by vm_compute. Qed.

Lemma options_trimmed s : s ∈ CATEGORY_OPTIONS → Py.strip s = s.
Proof.
  unfold CATEGORY_OPTIONS. rewrite !elem_of_cons, elem_of_nil.
  intros [->|[->|[->|[->|[->|[->|[->|[]]]]]]]]; by vm_compute.
Qed.

Lemma cleaned_category_option data y r p :
  c_category (cleaned_of data y r p) ∈ CATEGORY_OPTIONS.
Proof.
  rewrite cleaned_category. case_bool_decide; [done | apply Other_is_an_option].
Qed.

(** X24. Every cleaned record is within the bounds of the data
    model: its title, its author and its image URL are trimmed and not
    empty, its year lies between 0 and 2100, its category is one of the
    category options, and its rating and its price, unless they are a
    NaN, which passes the comparisons, lie between 0 and 5 and at or
    above 0. *)
Theorem cleaned_record_is_within_bounds data c :
  validate_book_payload data = (None, Some c) →
  c_title c ≠ "" ∧ Py.strip (c_title c) = c_title c ∧
  c_author c ≠ "" ∧ Py.strip (c_author c) = c_author c ∧
  c_image_url c ≠ "" ∧ Py.strip (c_image_url c) = c_image_url c ∧
  0 ≤ c_year c ≤ 2100 ∧
  c_category c ∈ CATEGORY_OPTIONS ∧
  (PrimFloat.is_nan (c_rating c) = false →
   PrimFloat.leb 0 (c_rating c) = true ∧ PrimFloat.leb (c_rating c) 5 = true) ∧
  (PrimFloat.is_nan (c_price c) = false → PrimFloat.leb 0 (c_price c) = true).
Proof.
  intros (y & r & p & Ht & Ha & _ & Hy & _ & Hr1 & Hr2 & _ & Hp & ->)%validate_accepts.
  split; [by apply is_empty_false|]. split; [apply strip_idem|].
  split; [by apply is_empty_false|]. split; [apply strip_idem|].
  split; [|split; [|split; [done|split; [apply cleaned_category_option|split]]]].
  - unfold cleaned_of; simpl.
    destruct (Py.is_empty (image_url_read data)) eqn:Hi; [done|].
    by apply is_empty_false.
  - unfold cleaned_of; simpl.
    destruct (Py.is_empty (image_url_read data)); [apply placeholder_trimmed|].
    apply strip_idem.
  - intros Hnan. simpl in *. split; by apply float_not_ltb_leb.
  - intros Hnan. simpl in *. by apply float_not_ltb_leb.
Qed.

(** The payload [dune]. *)
Lemma cleaned_record_is_within_bounds_witness :
  validate_book_payload dune = (None, Some (cleaned_of dune 1965 0 0)) ∧
  0 ≤ c_year (cleaned_of dune 1965 0 0) ≤ 2100.
Proof.
  assert (validate_book_payload dune = (None, Some (cleaned_of dune 1965 0 0))) as H
    by (by vm_compute).
  split; [exact H|].
  by destruct (cleaned_record_is_within_bounds _ _ H) as (_ & _ & _ & _ & _ & _ & Hy & _).
Defined.

Lemma get_delete_ne data key k d :
  key ≠ k → get (delete key data) k d = get data k d.
Proof. intros. unfold get. by rewrite lookup_delete_ne. Qed.

Ltac reads_other_key :=
  unfold title_read, author_read, year_read, category_read, rating_read,
    price_read, image_url_read;
  rewrite ?get_insert_ne, ?get_delete_ne by done; try done.

(** X25. The validator reads the seven keys of a book and nothing
    else: binding any other key of the payload to any value, or removing
    it, changes neither the error nor the cleaned record. A client can so
    not set the id or the creation time of a record. *)
Theorem validator_ignores_other_keys data key v :
  key ∉ validator_keys →
  validate_book_payload (<[key := v]> data) = validate_book_payload data ∧
  validate_book_payload (delete key data) = validate_book_payload data.
Proof.
  unfold validator_keys. rewrite !not_elem_of_cons.
  intros (? & ? & ? & ? & ? & ? & ? & _).
  split; apply validate_reads; reads_other_key.
Qed.

(** The key [id] of a payload. *)
Lemma validator_ignores_other_keys_witness :
  ("id" ∉ validator_keys) ∧
  validate_book_payload (<["id" := PInt 99]> dune) = validate_book_payload dune.
Proof.
  assert ("id" ∉ validator_keys) as H
    by (apply (bool_decide_unpack _); by vm_compute).
  split; [exact H|]. by destruct (validator_ignores_other_keys dune "id" (PInt 99) H).
Defined.

Lemma payload_of_reads c :
  title_read (payload_of c) = Py.strip (c_title c) ∧
  author_read (payload_of c) = Py.strip (c_author c) ∧
  year_read (payload_of c) = Some (c_year c) ∧
  category_read (payload_of c) = Py.strip (c_category c) ∧
  rating_read (payload_of c) = Some (c_rating c) ∧
  price_read (payload_of c) = Some (c_price c) ∧
  image_url_read (payload_of c) = Py.strip (c_image_url c).
Proof.
  unfold title_read, author_read, year_read, category_read, rating_read,
    price_read, image_url_read, get, payload_of.
  repeat (rewrite lookup_insert_eq || rewrite lookup_insert_ne by done).
  rewrite ?lookup_singleton_eq. done.
Qed.

(** X26. Validation is idempotent: a cleaned record, sent back
    as a payload with its seven fields, passes validation and is cleaned
    to itself. *)
Theorem cleaned_record_validates_to_itself data c :
  validate_book_payload data = (None, Some c) →
  validate_book_payload (payload_of c) = (None, Some c).
Proof.
  intros Hv.
  destruct (payload_of_reads c) as (Ht & Ha & Hy & Hc & Hr & Hp & Hi).
  apply validate_accepts in Hv
    as (y & r & p & Ht' & Ha' & _ & Hyr & _ & Hr1 & Hr2 & _ & Hp1 & ->).
  set (c := cleaned_of data y r p) in *.
  assert (Py.strip (c_title c) = c_title c) as Est by apply strip_idem.
  assert (Py.strip (c_author c) = c_author c) as Esa by apply strip_idem.
  assert (Py.strip (c_category c) = c_category c) as Esc
    by apply options_trimmed, cleaned_category_option.
  assert (Py.strip (c_image_url c) = c_image_url c ∧
          Py.is_empty (c_image_url c) = false) as [Esi Eni].
  { unfold c, cleaned_of; simpl.
    destruct (Py.is_empty (image_url_read data)) eqn:Hie;
      [by split; [apply placeholder_trimmed|] | by split; [apply strip_idem|]]. }
  rewrite Est in Ht. rewrite Esa in Ha. rewrite Esc in Hc. rewrite Esi in Hi.
  rewrite (validate_accepted (payload_of c) y r p); try done;
    [|by rewrite Ht|by rewrite Ha].
  do 2 f_equal. unfold cleaned_of at 1. rewrite Ht, Ha, Hc, Hi, Eni.
  assert (or_other (c_category c) = c_category c) as ->.
  { unfold or_other. destruct (Py.is_empty (c_category c)) eqn:He; [|done].
    apply is_empty_true in He.
    pose proof (cleaned_category_option data y r p) as Hin. fold c in Hin.
    rewrite He in Hin. by destruct (empty_is_no_option). }
  rewrite bool_decide_eq_true_2 by apply cleaned_category_option.
  reflexivity.
Qed.

(** The payload [dune], cleaned and validated again. *)
Lemma cleaned_record_validates_to_itself_witness :
  validate_book_payload dune = (None, Some (cleaned_of dune 1965 0 0)) ∧
  validate_book_payload (payload_of (cleaned_of dune 1965 0 0))
    = (None, Some (cleaned_of dune 1965 0 0)).
Proof.
  assert (validate_book_payload dune = (None, Some (cleaned_of dune 1965 0 0))) as H
    by (by vm_compute).
  split; [exact H|]. exact (cleaned_record_validates_to_itself _ _ H).
Defined.


End ValidatorMore.
(** ** More on create, update, delete *)

Section CrudMore.

Implicit Types (db : Database) (b : Book) (c : Cleaned) (body : option pyval).

Lemma json_or_empty_empty body :
  empty_body body = true → json_or_empty body = Some ∅.
Proof.
  unfold empty_body, json_or_empty. destruct body as [v|]; [|done].
  by intros ->%negb_true_iff.
Qed.

Lemma json_or_empty_no_object body :
  no_object body = true → json_or_empty body = None.
Proof.
  unfold no_object, json_or_empty. destruct body as [v|]; [|done].
  destruct v; try done; by intros ->.
Qed.

Lemma validate_empty :
  validate_book_payload ∅ = (Some "Title is required.", None).
Proof. by vm_compute. Qed.



Lemma first_by_id_fmap i (f : Book → Book) (l : list Book) :
  (∀ r, id (f r) = id r) →
  first_by_id i (f <$> l) = f <$> first_by_id i l.
Proof.
  intros Hf. unfold first_by_id. induction l as [|r l IH]; [done|]. simpl.
  rewrite Hf. by destruct (id r =? i).
Qed.

Lemma filter_other_ids i (l : list Book) :
  Forall (λ r, id r ≠ i) l → List.filter (λ r, negb (id r =? i)) l = l.
Proof.
  induction 1 as [|r l Hr _ IH]; [done|]. simpl.
  rewrite (proj2 (Z.eqb_neq _ _) Hr). simpl. by rewrite IH.
Qed.

Lemma first_by_id_filter_eq i (l : list Book) :
  first_by_id i (List.filter (λ r, negb (id r =? i)) l) = None.
Proof.
  apply first_by_id_none, Forall_forall. intros r [_ Hr]%list_elem_of_In%filter_In.
  apply negb_true_iff, Z.eqb_neq in Hr. done.
Qed.

Lemma first_by_id_filter_ne i j (l : list Book) :
  i ≠ j →
  first_by_id i (List.filter (λ r, negb (id r =? j)) l) = first_by_id i l.
Proof.
  intros Hij. unfold first_by_id. induction l as [|r l IH]; [done|]. simpl.
  destruct (Z.eqb_spec (id r) j) as [Hj|Hj]; simpl.
  - rewrite IH. by rewrite (proj2 (Z.eqb_neq (id r) i)) by lia.
  - by rewrite IH.
Qed.

(** The first row of an id is the only one when the ids are distinct:
    the delete takes it out and keeps the others in their order. *)
Lemma filter_found i (l : list Book) b :
  NoDup (id <$> l) → first_by_id i l = Some b →
  ∃ l1 l2 : list Book, l = (l1 ++ b :: l2)%list ∧
           List.filter (λ r, negb (id r =? i)) l = (l1 ++ l2)%list.
Proof.
  unfold first_by_id. induction l as [|r l IH]; [done|].
  rewrite fmap_cons, NoDup_cons. intros [Hr Hl]. simpl.
  destruct (Z.eqb_spec (id r) i) as [Hi|Hi]; simpl.
  - intros [= ->]. exists [], l. split; [done|]. simpl.
    apply filter_other_ids, Forall_forall. intros r Hin <-.
    apply Hr, list_elem_of_fmap. by exists r.
  - intros Hb. destruct (IH Hl Hb) as (l1 & l2 & -> & ->).
    by exists (r :: l1), l2.
Qed.

(** The outcomes of an update. *)
Lemma update_book_cases book_id body db :
  snd (update_book book_id body db) = db ∨
  ∃ data c b, json_or_empty body = Some data ∧
              validate_book_payload data = (None, Some c) ∧
              first_by_id book_id (rows db) = Some b.
Proof.
  destruct (json_or_empty body) as [data|] eqn:Hj;
    [|left; unfold update_book; by rewrite Hj].
  destruct (validate_cases data) as [[r Hr]|(y & r & p & _ & _ & _ & Hc)].
  - left. by rewrite (update_book_invalid _ _ _ _ _ Hj Hr).
  - rewrite (update_book_valid _ _ _ _ _ Hj Hc).
    destruct (first_by_id book_id (rows db)) as [b|] eqn:Hb; [|by left].
    right. by exists data, (cleaned_of data y r p), b.
Qed.

Lemma overwrite_twice book_id c1 c2 (l : list Book) :
  (λ r, if id r =? book_id then overwritten c2 r else r) <$>
    ((λ r, if id r =? book_id then overwritten c1 r else r) <$> l)
  = (λ r, if id r =? book_id then overwritten c2 r else r) <$> l.
Proof.
  rewrite <- list_fmap_compose. apply list_fmap_ext. intros _ r _. simpl.
  destruct (id r =? book_id) eqn:Hr; simpl; by rewrite Hr.
Qed.

Lemma update_after_update book_id body1 body2 data c db :
  json_or_empty body2 = Some data →
  validate_book_payload data = (None, Some c) →
  update_book book_id body2 (snd (update_book book_id body1 db))
  = update_book book_id body2 db.
Proof.
  intros Hj Hv.
  destruct (update_book_cases book_id body1 db)
    as [->|(data1 & c1 & b & Hj1 & Hv1 & Hb)]; [done|].
  rewrite (update_book_valid _ _ _ _ _ Hj1 Hv1), Hb. simpl.
  rewrite !(update_book_valid _ _ _ _ _ Hj Hv). simpl.
  rewrite first_by_id_fmap by (intros r; by destruct (id r =? book_id)).
  rewrite Hb. simpl. apply first_by_id_some in Hb as [_ Hid].
  rewrite (proj2 (Z.eqb_eq _ _) Hid). by rewrite overwrite_twice.
Qed.

Lemma db_wf_append b db :
  db_wf db → id b = next_id db →
  db_wf {| rows := rows db ++ [b]; next_id := next_id db + 1 |}.
Proof.
  intros [Hnd Hlt] Hid. split; simpl.
  - rewrite fmap_app. apply NoDup_app. split; [done|]. split.
    + intros i [r [-> Hr]]%list_elem_of_fmap. simpl.
      rewrite list_elem_of_singleton. rewrite Forall_forall in Hlt.
      specialize (Hlt r Hr). lia.
    + apply NoDup_singleton.
  - apply Forall_app. split.
    + eapply Forall_impl; [exact Hlt|]. simpl. intros; lia.
    + apply Forall_singleton. lia.
Qed.

Lemma db_wf_create now c db :
  db_wf db →
  db_wf {| rows := rows db ++ [new_book (next_id db) now c];
           next_id := next_id db + 1 |}.
Proof. intros Hwf. by apply db_wf_append. Qed.

Lemma db_wf_update book_id c db :
  db_wf db →
  db_wf {| rows := (λ r, if id r =? book_id then overwritten c r else r) <$> rows db;
           next_id := next_id db |}.
Proof.
  intros [Hnd Hlt]. split; simpl.
  - rewrite <- list_fmap_compose.
    erewrite list_fmap_ext; [exact Hnd|].
    intros _ r _. simpl. by destruct (id r =? book_id).
  - apply Forall_fmap. eapply Forall_impl; [exact Hlt|].
    intros r Hr. simpl. by destruct (id r =? book_id).
Qed.

Lemma db_wf_delete book_id db :
  db_wf db →
  db_wf {| rows := List.filter (λ r, negb (id r =? book_id)) (rows db);
           next_id := next_id db |}.
Proof.
  intros [Hnd Hlt]. split; simpl.
  - revert Hnd. generalize (rows db). intros l.
    induction l as [|r l IH]; [done|].
    rewrite fmap_cons, NoDup_cons. intros [Hr Hl]. simpl.
    destruct (negb (id r =? book_id)); [|by apply IH].
    rewrite fmap_cons, NoDup_cons. split; [|by apply IH].
    intros [r' [Heq [Hin _]%list_elem_of_In%filter_In]]%list_elem_of_fmap.
    apply Hr, list_elem_of_fmap. exists r'. split; [done|by apply list_elem_of_In].
  - apply Forall_forall. intros r [Hr _]%list_elem_of_In%filter_In.
    rewrite Forall_forall in Hlt. by apply Hlt, list_elem_of_In.
Qed.

(** X1. A create or an update whose body is no JSON, or is a JSON value
    that counts as false ([null], [false], [0], the empty text, list or
    object), is validated as the empty payload: it answers 400 with the
    message on the title and leaves the table as it was, whether or not
    the id of the update is that of a record. *)
Theorem empty_body_misses_title now book_id body db :
  empty_body body = true →
  create_book now body db = (Json (ErrorBody "Title is required.") 400, db) ∧
  update_book book_id body db = (Json (ErrorBody "Title is required.") 400, db).
Proof.
  intros Hj%json_or_empty_empty. unfold create_book, update_book.
  by rewrite Hj, validate_empty.
Qed.

(** The empty list as the body of a request on the table [one_book]. *)
Lemma empty_body_misses_title_witness :
  empty_body (Some (PList [])) = true ∧
  update_book 1 (Some (PList [])) one_book
  = (Json (ErrorBody "Title is required.") 400, one_book).
Proof.
  split; [reflexivity|].
  by destruct (empty_body_misses_title 0 1 (Some (PList [])) one_book eq_refl).
Defined.

(** X2. A create or an update whose body is a JSON value that counts as
    true and is no object (a number other than zero, [true], a text or a
    list that is not empty) is not answered by the handler: the
    validator raises on it, and the table is left as it was. *)
Theorem body_without_keys_is_unhandled now book_id body db :
  no_object body = true →
  create_book now body db = (Unhandled, db) ∧
  update_book book_id body db = (Unhandled, db).
Proof.
  intros Hj%json_or_empty_no_object. unfold create_book, update_book.
  by rewrite Hj.
Qed.

(** A list of one number as the body of a request. *)
Lemma body_without_keys_is_unhandled_witness :
  no_object (Some (PList [PInt 1])) = true ∧
  status_of (fst (create_book 0 (Some (PList [PInt 1])) empty_db)) = 500.
Proof.
  split; [reflexivity|].
  by destruct (body_without_keys_is_unhandled 0 1 (Some (PList [PInt 1])) empty_db
                 eq_refl) as [-> _].
Defined.



(** X4. The three handlers that write keep the ids of the table
    distinct and below the next id of the sequence, and none of them
    takes the sequence back: an id that was given once is not given
    again, also after the delete of its record. *)
Theorem handlers_keep_ids_distinct now book_id body db :
  db_wf db →
  (db_wf (snd (create_book now body db)) ∧
   next_id db ≤ next_id (snd (create_book now body db))) ∧
  (db_wf (snd (update_book book_id body db)) ∧
   next_id (snd (update_book book_id body db)) = next_id db) ∧
  (db_wf (snd (delete_book book_id db)) ∧
   next_id (snd (delete_book book_id db)) = next_id db).
Proof.
  intros Hwf. split; [|split].
  - unfold create_book. destruct (json_or_empty body) as [data|]; [|by split].
    destruct (validate_cases data) as [[r ->]|(y & r & p & _ & _ & _ & ->)].
    + unfold is_error. rewrite message_nonempty. by split.
    + simpl. split; [by apply db_wf_create | lia].
  - destruct (update_book_cases book_id body db)
      as [->|(data & c & b & Hj & Hv & Hb)]; [by split|].
    rewrite (update_book_valid _ _ _ _ _ Hj Hv), Hb. simpl.
    split; [by apply db_wf_update | done].
  - unfold delete_book. destruct (first_by_id book_id (rows db)); [|by split].
    simpl. split; [by apply db_wf_delete | done].
Qed.

(** The table [one_book]. *)
Lemma handlers_keep_ids_distinct_witness :
  db_wf one_book ∧ db_wf (snd (delete_book 1 one_book)).
Proof.
  assert (db_wf one_book) as H.
  { split; [apply (bool_decide_unpack _); by vm_compute|].
    repeat constructor. }
  split; [exact H|].
  by destruct (handlers_keep_ids_distinct 0 1 None one_book H)
    as (_ & _ & [Hd _]).
Defined.

(** X5. In a table whose ids are distinct, the delete of a stored record
    answers 200 with [ok] and takes exactly that row out: the rows
    before and after it keep their order, and the id sequence is as
    before. A second delete of the same id, and an update of it with a
    payload that passes validation, answer 404. *)
Theorem delete_removes_the_record book_id db b :
  db_wf db →
  first_by_id book_id (rows db) = Some b →
  ∃ l1 l2 : list Book,
    rows db = (l1 ++ b :: l2)%list ∧
    delete_book book_id db =
      (Json OkBody 200, {| rows := l1 ++ l2; next_id := next_id db |}) ∧
    delete_book book_id {| rows := l1 ++ l2; next_id := next_id db |} =
      (not_found, {| rows := l1 ++ l2; next_id := next_id db |}) ∧
    ∀ body data c,
      json_or_empty body = Some data →
      validate_book_payload data = (None, Some c) →
      update_book book_id body {| rows := l1 ++ l2; next_id := next_id db |} =
        (not_found, {| rows := l1 ++ l2; next_id := next_id db |}).
Proof.
  intros [Hnd _] Hb.
  destruct (filter_found _ _ _ Hnd Hb) as (l1 & l2 & Hrows & Hfilter).
  exists l1, l2. split; [done|].
  pose proof (first_by_id_filter_eq book_id (rows db)) as Hnone.
  rewrite Hfilter in Hnone.
  split; [|split].
  - unfold delete_book. by rewrite Hb, Hfilter.
  - unfold delete_book. simpl. by rewrite Hnone.
  - intros body data c Hj Hv.
    rewrite (update_book_valid _ _ _ _ _ Hj Hv). simpl. by rewrite Hnone.
Qed.

(** The one row of [one_book]. *)
Lemma delete_removes_the_record_witness :
  db_wf one_book ∧
  ∃ l1 l2 : list Book,
    delete_book 1 one_book = (Json OkBody 200, {| rows := l1 ++ l2; next_id := 2 |}).
Proof.
  assert (db_wf one_book) as H.
  { split; [apply (bool_decide_unpack _); by vm_compute|].
    repeat constructor. }
  split; [exact H|].
  destruct (delete_removes_the_record 1 one_book
              (new_book 1 0 (cleaned_of dune 1965 0 0)) H eq_refl)
    as (l1 & l2 & _ & Hd & _).
  by exists l1, l2.
Defined.





(** X8. An update is idempotent: made a second time with the same id
    and body, it gives the answer and the table of the first time,
    whatever the body and whether or not the id is that of a record. *)
Theorem update_is_idempotent book_id body db :
  update_book book_id body (snd (update_book book_id body db))
  = update_book book_id body db.
Proof.
  destruct (update_book_cases book_id body db)
    as [->|(data & c & b & Hj & Hv & Hb)]; [done|].
  by apply update_after_update with data c.
Qed.

End CrudMore.
(** ** More on the listing *)

(** *** The order of a column *)

Section Orders.










End Orders.

(** *** Sorting by insertion *)

Section InsertionSort.

Context (le : Book → Book → bool).
Hypothesis le_total : ∀ a b, le a b = true ∨ le b a = true.




End InsertionSort.

Section ListingMore.

Implicit Types (db : Database) (args : gmap string string).






Lemma ordered_elem args db b :
  b ∈ ordered args db ↔
  b ∈ rows db ∧ matches (q_arg args) (category_arg args) b.
Proof.
  unfold ordered. rewrite order_by_perm. unfold matching.
  rewrite list_elem_of_filter. tauto.
Qed.

Lemma page_of_elem args db page b :
  b ∈ page_of args db page →
  b ∈ rows db ∧ matches (q_arg args) (category_arg args) b.
Proof.
  unfold page_of. intros Hb%subseteq_take%subseteq_drop.
  by apply ordered_elem.
Qed.

(** The items of an answer are made of the records of the resolved
    page. *)
Lemma items_of_get_books args db :
  items_of (get_books args db) = []
  ∨ items_of (get_books args db)
    = book_to_dict <$> page_of args db (resolved_page args).
Proof.
  rewrite get_books_eq. destruct (page_count _ _); [by right | by left].
Qed.



















(** X14. After a delete, no listing has an item with the id of the
    delete, whatever the request and whether or not the delete found a
    record. *)
Theorem deleted_record_is_not_listed book_id args db :
  Forall (λ d, d_id d ≠ book_id)
         (items_of (get_books args (snd (delete_book book_id db)))).
Proof.
  destruct (items_of_get_books args (snd (delete_book book_id db))) as [->| ->];
    [constructor|].
  apply Forall_fmap, Forall_forall. intros b [Hb _]%page_of_elem. simpl.
  revert Hb. unfold delete_book.
  destruct (first_by_id book_id (rows db)) as [b0|] eqn:Hfind; simpl.
  - intros [_ Hne]%list_elem_of_In%filter_In.
    by apply negb_true_iff, Z.eqb_neq in Hne.
  - intros Hb Heq. apply find_none with (x := b) in Hfind.
    + apply Z.eqb_neq in Hfind. done.
    + by apply list_elem_of_In.
Qed.

End ListingMore.
(** ** The free text and the case of letters; statistics and listing *)

Section SearchMore.

Import Py.

Implicit Types (db : Database) (args : gmap string string).

Ltac args_rest :=
  unfold q_arg, category_arg, resolved_page, resolved_page_size, resolved_sort_by,
    resolved_sort_dir, page_arg, page_size_arg, sort_by_arg, sort_dir_arg;
  rewrite ?arg_insert_ne by done; try done.

Lemma isspace_lower_char c : isspace (lower_char c) = isspace c.
Proof. by_cases_on c. Qed.

Lemma is_empty_lower s : is_empty (lower s) = is_empty s.
Proof. by destruct s. Qed.

Lemma lstrip_lower s : lstrip isspace (lower s) = lower (lstrip isspace s).
Proof.
  induction s as [|c s IH]; [done|]. simpl. rewrite isspace_lower_char.
  by destruct (isspace c).
Qed.

Lemma rstrip_lower s : rstrip isspace (lower s) = lower (rstrip isspace s).
Proof.
  induction s as [|c s IH]; [done|]. simpl.
  rewrite IH, is_empty_lower, isspace_lower_char.
  by destruct (is_empty (rstrip isspace s) && isspace c).
Qed.

Lemma strip_lower s : strip (lower s) = lower (strip s).
Proof. unfold strip. by rewrite lstrip_lower, rstrip_lower. Qed.

Lemma lower_empty s : lower s = "" ↔ s = "".
Proof. by destruct s. Qed.

Lemma ilike_same_lower q1 q2 text :
  lower q1 = lower q2 →
  ilike text ("%" ++ q1 ++ "%") = ilike text ("%" ++ q2 ++ "%").
Proof.
  intros H. unfold ilike.
  change (lower ("%" ++ q1 ++ "%")) with (String "%" (lower (q1 ++ "%"))).
  change (lower ("%" ++ q2 ++ "%")) with (String "%" (lower (q2 ++ "%"))).
  by rewrite !lower_app, H.
Qed.

Lemma matches_same_lower q1 q2 cat (b : Book) :
  lower q1 = lower q2 → matches q1 cat b ↔ matches q2 cat b.
Proof.
  intros H. unfold matches.
  rewrite !(ilike_same_lower q1 q2) by done.
  assert (q1 = "" ↔ q2 = "") as ->; [|done].
  by rewrite <- (lower_empty q1), <- (lower_empty q2), H.
Qed.

Lemma q_arg_insert args q : q_arg (<["q" := q]> args) = strip q.
Proof. unfold q_arg. by rewrite arg_insert_eq. Qed.

Lemma matching_same_lower args q1 q2 db :
  lower q1 = lower q2 →
  matching (<["q" := q1]> args) db = matching (<["q" := q2]> args) db.
Proof.
  intros H. unfold matching. rewrite !q_arg_insert.
  assert (category_arg (<["q" := q1]> args) = category_arg (<["q" := q2]> args))
    as -> by args_rest.
  apply list_filter_iff. intros b. apply matches_same_lower.
  by rewrite <- !strip_lower, H.
Qed.

(** X15. The free text of a listing is read without regard to the case
    of its letters: two requests whose free texts are the same once in
    lower case, and which agree on everything else, get the same
    answer. *)
Theorem free_text_ignores_case args q1 q2 db :
  Py.lower q1 = Py.lower q2 →
  get_books (<["q" := q1]> args) db = get_books (<["q" := q2]> args) db.
Proof.
  intros H. rewrite !get_books_eq. unfold page_of, ordered.
  rewrite (matching_same_lower args q1 q2 db H).
  by args_rest.
Qed.

(** The free texts "DUNE" and "dune". *)
Lemma free_text_ignores_case_witness :
  get_books {[ "q" := "DUNE" ]} one_book = get_books {[ "q" := "dune" ]} one_book.
Proof.
  exact (free_text_ignores_case ∅ "DUNE" "dune" one_book eq_refl).
Defined.





End SearchMore.
(** ** Start-up: the database URL, the metadata and the seeding *)

Section Startup.

Import Py.

Implicit Types (db : Database) (b : Book) (file : option (list SeedRow)).

Lemma startswith_spec s p :
  PyExtra.startswith s p = true ↔ ∃ rest, s = p ++ rest.
Proof.
  revert s. induction p as [|c p IH]; intros s.
  - split; [intros _; exists s; reflexivity | intros _; by destruct s].
  - destruct s as [|x s]; simpl.
    + split; [done | by intros [rest ?]].
    + rewrite andb_true_iff, IH, Ascii.eqb_eq. split.
      * intros [-> [rest ->]]. exists rest. reflexivity.
      * intros [rest Heq].
        change (String x s = String c (p ++ rest)) in Heq.
        injection Heq as -> ->. split; [done | by exists rest].
Qed.

Lemma startswith_app p rest : PyExtra.startswith (p ++ rest) p = true.
Proof. apply startswith_spec. by exists rest. Qed.

Lemma string_drop_app p rest : string_drop (String.length p) (p ++ rest) = rest.
Proof. induction p as [|c p IH]; [by destruct rest | exact IH]. Qed.

Lemma replace_first_prefix old new rest :
  PyExtra.replace_first (old ++ rest) old new = new ++ rest.
Proof.
  assert (∀ s, PyExtra.replace_first s old new =
               if PyExtra.startswith s old
               then new ++ string_drop (String.length old) s
               else match s with
                    | EmptyString => EmptyString
                    | String c s' => String c (PyExtra.replace_first s' old new)
                    end) as -> by (by intros []).
  by rewrite startswith_app, string_drop_app.
Qed.

(** X17. The database URL is the value of the environment variable
    without the white space around it. There is none, and the start-up
    fails, exactly when the variable is not set or holds white space
    only. A value that starts with [postgres://] has this scheme, and
    nothing after it, replaced by [postgresql://]; any other value is
    kept. The resulting URL is never empty and never starts with
    [postgres://]. *)
Theorem database_url_scheme env :
  (_get_database_url env = None ↔ strip (default "" env) = "") ∧
  (∀ rest, strip (default "" env) = "postgres://" ++ rest →
           _get_database_url env = Some ("postgresql://" ++ rest)) ∧
  (strip (default "" env) ≠ "" →
   PyExtra.startswith (strip (default "" env)) "postgres://" = false →
   _get_database_url env = Some (strip (default "" env))) ∧
  (∀ url, _get_database_url env = Some url →
          url ≠ "" ∧ PyExtra.startswith url "postgres://" = false).
Proof.
  unfold _get_database_url. split; [|split; [|split]].
  - rewrite <- is_empty_true. destruct (is_empty _); [done|].
    by destruct (PyExtra.startswith _ _).
  - intros rest ->.
    by rewrite startswith_app, replace_first_prefix.
  - intros Hne%is_empty_false Hs. by rewrite Hne, Hs.
  - intros url. destruct (is_empty _) eqn:Hne; [done|].
    destruct (PyExtra.startswith _ _) eqn:Hs.
    + apply startswith_spec in Hs as [rest ->].
      rewrite replace_first_prefix. by intros [= <-].
    + intros [= <-]. split; [by apply is_empty_false | done].
Qed.

Lemma page_sizes_of_meta : m_pageSizes meta = [5; 10; 20; 50].
Proof. by vm_compute. Qed.

Lemma sort_fields_of_meta :
  m_sortFields meta = [ "author"; "created_at"; "price"; "rating"; "title"; "year" ].
Proof. by vm_compute. Qed.

(** X18. What the metadata name is what the other handlers accept: a
    page size of the metadata, written in decimal, is the resolved page
    size of a listing request; a sort field of the metadata is its
    resolved sort field; and a category of the metadata is the category
    of the cleaned record of a payload that passes validation. The page
    sizes of the metadata are the allowed ones. *)
Theorem advertised_values_are_accepted :
  (∀ n, n ∈ m_pageSizes meta ↔ n ∈ ALLOWED_PAGE_SIZES) ∧
  (∀ n args, n ∈ m_pageSizes meta →
     resolved_page_size (<["pageSize" := str_int n]> args) = n) ∧
  (∀ f, f ∈ m_sortFields meta ↔ f ∈ ALLOWED_SORT_FIELDS) ∧
  (∀ f args, f ∈ m_sortFields meta →
     resolved_sort_by (<["sortBy" := f]> args) = f) ∧
  (∀ cat data c, cat ∈ m_categories meta →
     validate_book_payload (<["category" := PStr cat]> data) = (None, Some c) →
     c_category c = cat).
Proof.
  assert (∀ n, n ∈ m_pageSizes meta ↔ n ∈ ALLOWED_PAGE_SIZES) as Hps.
  { intros n. rewrite page_sizes_of_meta. unfold ALLOWED_PAGE_SIZES.
    rewrite !elem_of_cons, elem_of_nil, !elem_of_union, !elem_of_singleton. tauto. }
  assert (∀ f, f ∈ m_sortFields meta ↔ f ∈ ALLOWED_SORT_FIELDS) as Hsf.
  { intros f. rewrite sort_fields_of_meta. unfold ALLOWED_SORT_FIELDS.
    rewrite !elem_of_cons, elem_of_nil, !elem_of_union, !elem_of_singleton. tauto. }
  split; [exact Hps|]. split; [|split; [exact Hsf|split]].
  - intros n args Hn%Hps. unfold resolved_page_size, page_size_arg.
    rewrite arg_insert_eq. simpl. rewrite int_of_str_str_int. simpl.
    by rewrite bool_decide_eq_true_2.
  - intros f args Hf. unfold resolved_sort_by, sort_by_arg.
    rewrite arg_insert_eq. simpl.
    assert (strip f = f) as ->.
    { rewrite sort_fields_of_meta, !elem_of_cons, elem_of_nil in Hf.
      destruct Hf as [->|[->|[->|[->|[->|[->|[]]]]]]]; by vm_compute. }
    apply Hsf in Hf. by rewrite bool_decide_eq_true_2.
  - intros cat data c Hcat
      (y & r & p & _ & _ & _ & _ & _ & _ & _ & _ & _ & ->)%validate_accepts.
    rewrite cleaned_category. unfold category_read.
    rewrite get_insert_eq. simpl. rewrite (options_trimmed _ Hcat).
    by rewrite bool_decide_eq_true_2.
Qed.

(** *** Seeding *)

Lemma seed_if_needed_eq clock file db :
  seed_if_needed clock file db =
  if 30 <=? Z.of_nat (length (rows db)) then Some db
  else
    match seed_books clock 1 (next_id db) (effective_seed file) with
    | None => None
    | Some bs =>
        Some (top_up clock 30 (Z.of_nat (length (rows db ++ bs)))
                {| rows := rows db ++ bs;
                   next_id := next_id db + Z.of_nat (length bs) |})
    end.
Proof.
  unfold seed_if_needed, effective_seed. by destruct (default [] file).
Qed.

Lemma seed_rating_range i :
  PrimFloat.leb 0 (seed_rating i) = true ∧
  PrimFloat.leb (seed_rating i) 0x1.399999999999ap+2 = true.
Proof.
  unfold seed_rating.
  pose proof (Z.mod_pos_bound (i * 37) 50 ltac:(lia)) as Hr.
  set (r := (i * 37) mod 50) in *.
  assert (forallb (λ k : nat,
            PrimFloat.leb 0 (PyExtra.round_to 1 (truediv (Z.of_nat k) 10))
            && PrimFloat.leb (PyExtra.round_to 1 (truediv (Z.of_nat k) 10))
                             0x1.399999999999ap+2) (seq 0 50) = true) as Hall
    by (by vm_compute).
  rewrite forallb_forall in Hall. specialize (Hall (Z.to_nat r)).
  rewrite Z2Nat.id in Hall by lia.
  apply andb_true_iff, Hall, in_seq. lia.
Qed.

Lemma seed_price_range i :
  PrimFloat.leb 5 (seed_price i) = true ∧
  PrimFloat.leb (seed_price i) 0x1.1733333333333p+5 = true.
Proof.
  unfold seed_price.
  pose proof (Z.mod_pos_bound (i * 19) 300 ltac:(lia)) as Hr.
  set (r := (i * 19) mod 300) in *.
  assert (forallb (λ k : nat,
            PrimFloat.leb 5 (round2 (PrimFloat.add 5 (truediv (Z.of_nat k) 10)))
            && PrimFloat.leb (round2 (PrimFloat.add 5 (truediv (Z.of_nat k) 10)))
                             0x1.1733333333333p+5) (seq 0 300) = true) as Hall
    by (by vm_compute).
  rewrite forallb_forall in Hall. specialize (Hall (Z.to_nat r)).
  rewrite Z2Nat.id in Hall by lia.
  apply andb_true_iff, Hall, in_seq. lia.
Qed.

Lemma seed_category i :
  ∃ cat, CATEGORY_OPTIONS !! Z.to_nat (i mod Z.of_nat (length CATEGORY_OPTIONS))
         = Some cat ∧ cat ∈ CATEGORY_OPTIONS.
Proof.
  change (Z.of_nat (length CATEGORY_OPTIONS)) with 7.
  pose proof (Z.mod_pos_bound i 7 ltac:(lia)) as Hr.
  destruct (lookup_lt_is_Some_2 CATEGORY_OPTIONS (Z.to_nat (i mod 7))) as [cat Hcat].
  { change (length CATEGORY_OPTIONS) with 7%nat. lia. }
  exists cat. split; [done|]. by apply list_elem_of_lookup_2 in Hcat.
Qed.


Lemma seed_book_range i row new_id now b :
  seed_book i row new_id now = Some b → id b = new_id ∧ in_seed_range b.
Proof.
  unfold seed_book. destruct (seed_category i) as (cat & -> & Hcat).
  destruct (int (default (PInt 2000) (sr_year row))); [|done].
  intros [= <-]. split; [done|]. unfold in_seed_range. simpl.
  pose proof (seed_rating_range i). pose proof (seed_price_range i). tauto.
Qed.

Lemma seed_books_inv clock seed_rows : ∀ i new_id bs,
  seed_books clock i new_id seed_rows = Some bs →
  length bs = length seed_rows ∧ Forall in_seed_range bs ∧
  ∀ (k : nat) b, bs !! k = Some b → id b = new_id + Z.of_nat k.
Proof.
  induction seed_rows as [|row rest IH]; intros i new_id bs; simpl.
  - intros [= <-]. by repeat split.
  - destruct (seed_book i row new_id (clock new_id)) as [b|] eqn:Hb; [|done].
    destruct (seed_books clock (i + 1) (new_id + 1) rest) as [bs'|] eqn:Hbs; [|done].
    intros [= <-]. destruct (IH _ _ _ Hbs) as (Hlen & Hrange & Hids).
    apply seed_book_range in Hb as [Hid Hb].
    split; [simpl; by rewrite Hlen|]. split; [by constructor|].
    intros [|k] b'; simpl.
    + intros [= <-]. lia.
    + intros Hk%Hids. lia.
Qed.


Lemma top_up_book_range count2 new_id now :
  in_seed_range (top_up_book count2 new_id now).
Proof.
  unfold in_seed_range. simpl. split; [apply Other_is_an_option|]. done.
Qed.

Lemma top_up_S clock fuel count2 db :
  top_up clock (S fuel) count2 db =
  if count2 <? 30 then
    top_up clock fuel (count2 + 1)
      {| rows := rows db ++ [top_up_book count2 (next_id db) (clock (next_id db))];
         next_id := next_id db + 1 |}
  else db.
Proof. reflexivity. Qed.

Lemma top_up_inv clock fuel : ∀ count2 db,
  ∃ tops : list Book,
    rows (top_up clock fuel count2 db) = (rows db ++ tops)%list ∧
    next_id (top_up clock fuel count2 db) = next_id db + Z.of_nat (length tops) ∧
    length tops = Nat.min fuel (Z.to_nat (30 - count2)) ∧
    Forall in_seed_range tops ∧
    ∀ (k : nat) b, tops !! k = Some b → id b = next_id db + Z.of_nat k.
Proof.
  induction fuel as [|fuel IH]; intros count2 db.
  - exists []. rewrite app_nil_r. cbn [top_up length].
    split; [done|]. split; [lia|]. split; [lia|]. split; [constructor|].
    by intros k b.
  - rewrite top_up_S. destruct (Z.ltb_spec count2 30).
    + destruct (IH (count2 + 1)
                  {| rows := rows db ++
                       [top_up_book count2 (next_id db) (clock (next_id db))];
                     next_id := next_id db + 1 |})
        as (tops & Hrows & Hnext & Hlen & Hrange & Hids).
      cbn [rows next_id] in Hrows, Hnext, Hids.
      exists (top_up_book count2 (next_id db) (clock (next_id db)) :: tops).
      split; [by rewrite Hrows, <- app_assoc|].
      split; [rewrite Hnext; cbn [length]; lia|].
      split; [cbn [length]; lia|].
      split; [constructor; [apply top_up_book_range | done]|].
      intros [|k] b.
      * intros [= <-]. cbn [top_up_book id]. lia.
      * intros Hk. change (tops !! k = Some b) in Hk. rewrite (Hids _ _ Hk). lia.
    + exists []. rewrite app_nil_r. cbn [length].
      split; [done|]. split; [lia|]. split; [lia|]. split; [constructor|].
      by intros k b.
Qed.

Lemma db_wf_extend (new : list Book) : ∀ db,
  db_wf db →
  (∀ (k : nat) b, new !! k = Some b → id b = next_id db + Z.of_nat k) →
  db_wf {| rows := rows db ++ new; next_id := next_id db + Z.of_nat (length new) |}.
Proof.
  induction new as [|b new IH]; intros db Hwf Hids.
  - simpl. rewrite app_nil_r, Z.add_0_r. by destruct db.
  - pose proof (db_wf_append b db Hwf) as Hwf1.
    specialize (IH _ (Hwf1 ltac:(rewrite (Hids 0%nat b eq_refl); lia))).
    simpl in IH. rewrite <- app_assoc in IH. simpl in IH.
    replace (next_id db + Z.of_nat (length (b :: new)))
      with (next_id db + 1 + Z.of_nat (length new)) by (simpl; lia).
    apply IH. intros k b' Hk. rewrite (Hids (S k) b' Hk). lia.
Qed.

(** What a seeding that ends adds to the table. *)
Lemma seed_if_needed_adds clock file db db' :
  seed_if_needed clock file db = Some db' →
  ∃ new : list Book,
    rows db' = (rows db ++ new)%list ∧
    next_id db' = next_id db + Z.of_nat (length new) ∧
    Z.of_nat (length new) =
      (if 30 <=? Z.of_nat (length (rows db)) then 0
       else Z.max (30 - Z.of_nat (length (rows db)))
                  (Z.of_nat (length (effective_seed file)))) ∧
    Forall in_seed_range new ∧
    ∀ (k : nat) b, new !! k = Some b → id b = next_id db + Z.of_nat k.
Proof.
  rewrite seed_if_needed_eq. destruct (Z.leb_spec 30 (Z.of_nat (length (rows db)))).
  - intros [= <-]. exists []. rewrite app_nil_r. simpl.
    split; [done|]. split; [lia|]. split; [done|]. split; [constructor|].
    by intros k b.
  - destruct (seed_books _ _ _ _) as [bs|] eqn:Hbs; [|done].
    apply seed_books_inv in Hbs as (Hlen & Hrange & Hids).
    destruct (top_up_inv clock 30 (Z.of_nat (length (rows db ++ bs)))
                {| rows := rows db ++ bs;
                   next_id := next_id db + Z.of_nat (length bs) |})
      as (tops & Hrows & Hnext & Hlent & Hranget & Hidst).
    remember (top_up clock 30 _ _) as db2 eqn:Hdb2. clear Hdb2.
    intros Heq. assert (db2 = db') as -> by congruence. clear Heq.
    cbn [rows next_id] in Hrows, Hnext, Hidst. exists (bs ++ tops)%list.
    split; [by rewrite Hrows, app_assoc|].
    split; [rewrite Hnext, length_app; lia|].
    split; [rewrite length_app in *; lia|].
    split; [by apply Forall_app|].
    intros k b. rewrite lookup_app_Some. intros [Hk|[Hge Hk]].
    + by apply Hids.
    + rewrite (Hidst _ _ Hk). lia.
Qed.

(** X19. A seeding that ends keeps the rows of the table and adds rows
    after them, none when the table has 30 rows or more. Otherwise it
    adds every row of the seed, those of the file or the two of the
    fallback, also beyond 30 rows, and tops the table up to 30 rows
    when the seed did not reach them. The rows it adds have a category
    of the options, a rating from 0.0 to 4.9 and a price from 5.00 to
    34.90, and take the next ids of the sequence, so that the ids stay
    distinct. *)
Theorem seeding_fills_the_table clock file db db' :
  seed_if_needed clock file db = Some db' →
  ∃ new : list Book,
    rows db' = (rows db ++ new)%list ∧
    next_id db' = next_id db + Z.of_nat (length new) ∧
    Z.of_nat (length (rows db')) =
      (if 30 <=? Z.of_nat (length (rows db)) then Z.of_nat (length (rows db))
       else Z.max 30 (Z.of_nat (length (rows db))
                      + Z.of_nat (length (effective_seed file)))) ∧
    Forall in_seed_range new ∧
    (db_wf db → db_wf db').
Proof.
  intros (new & Hrows & Hnext & Hlen & Hrange & Hids)%seed_if_needed_adds.
  exists new. split; [done|]. split; [done|].
  split; [rewrite Hrows, length_app; destruct (30 <=? _); lia|].
  split; [done|]. intros Hwf.
  pose proof (db_wf_extend new db Hwf Hids) as Hwf'.
  destruct db' as [rows' next']. simpl in *. by subst.
Qed.

(** The seeding of the empty table without a file. *)
Lemma seeding_fills_the_table_witness :
  ∃ db', seed_if_needed (λ _, 0) None empty_db = Some db' ∧
         Z.of_nat (length (rows db')) = 30.
Proof.
  destruct (seed_if_needed (λ _, 0) None empty_db) as [db'|] eqn:Hseed;
    [|by vm_compute in Hseed].
  exists db'. split; [done|].
  destruct (seeding_fills_the_table _ _ _ _ Hseed) as (new & _ & _ & Hlen & _).
  exact Hlen.
Defined.

(** X20. A seeding that ends leaves at least 30 rows, and a seeding of
    a table it has left, with whatever file and clock, adds nothing:
    the seeding can run at every start-up. *)
Theorem seeding_is_idempotent clock file db db' clock' file' :
  seed_if_needed clock file db = Some db' →
  30 ≤ Z.of_nat (length (rows db')) ∧
  seed_if_needed clock' file' db' = Some db'.
Proof.
  intros (new & Hrows & _ & Hlen & _)%seed_if_needed_adds.
  assert (30 ≤ Z.of_nat (length (rows db'))) as H30.
  { rewrite Hrows, length_app. destruct (Z.leb_spec 30 (Z.of_nat (length (rows db)))); lia. }
  split; [done|]. rewrite seed_if_needed_eq.
  by destruct (Z.leb_spec 30 (Z.of_nat (length (rows db')))); [|lia].
Qed.

(** The seeding of the empty table, twice. *)
Lemma seeding_is_idempotent_witness :
  ∃ db', seed_if_needed (λ _, 0) None empty_db = Some db' ∧
         seed_if_needed (λ _, 1) (Some []) db' = Some db'.
Proof.
  destruct (seed_if_needed (λ _, 0) None empty_db) as [db'|] eqn:Hseed;
    [|by vm_compute in Hseed].
  exists db'. split; [done|].
  by destruct (seeding_is_idempotent _ _ _ _ (λ _, 1) (Some []) Hseed).
Defined.


End Startup.
